(** * problem-to-manim: the tool-augmented agent loop

    A shallow embedding of [src/agent/tools.ts] (the file-editing tool and
    the command-execution tool) and of the two variants of
    [src/api/generate.ts] ([handleGenerate] over [generateText] and over
    [streamText]), with the properties of the specification stated and
    settled against them.

    Conventions of the embedding.
    - A JavaScript string is a [string]; its [length] is [String.length].
    - [undefined] for an optional tool argument is [None].
    - A JavaScript exception is a value of [Exn]; a computation that may
      throw and that touches the file system is a function
      [World -> (Exn + A) * World] (the world is kept as it was at the
      moment of the throw: nothing is rolled back).
    - The file system is a finite map from resolved absolute paths
      (component lists) to nodes, a node being a regular file or a
      directory, since [create] makes directories itself. *)

From Stdlib Require Import ZArith Ascii String List Bool Lia.
From stdpp Require Import base option list strings pretty gmap.

Local Open Scope string_scope.
Local Open Scope Z_scope.

(** ** JavaScript string and array primitives used by the tools *)

Module JS.

(** The line feed, ["\n"]. *)
Definition LF : ascii := Ascii.ascii_of_nat 10.
Definition NL : string := String LF EmptyString.

(** [s.startsWith(p)]. *)
Fixpoint startsWith (p s : string) : bool :=
  match p, s with
  | EmptyString, _ => true
  | String a p', String b s' => if Ascii.eqb a b then startsWith p' s' else false
  | String _ _, EmptyString => false
  end.

(** [s.substring(n)]: [s] without its first [n] characters. *)
Fixpoint skip (n : nat) (s : string) : string :=
  match n, s with
  | O, _ => s
  | S n', String _ s' => skip n' s'
  | S _, EmptyString => EmptyString
  end.

(** The first occurrence of [pat] in [s], as the text before it and the
    text after it ([s.indexOf(pat)] together with the two slices). *)
Fixpoint search (pat s : string) : option (string * string) :=
  if startsWith pat s then Some (EmptyString, skip (String.length pat) s)
  else match s with
       | EmptyString => None
       | String c s' =>
           match search pat s' with
           | Some (pre, post) => Some (String c pre, post)
           | None => None
           end
       end.

(** [s.includes(pat)]. *)
Definition includes (s pat : string) : bool :=
  match search pat s with Some _ => true | None => false end.

(** The number of positions of [s] at which [pat] occurs. *)
Fixpoint occurrences (pat s : string) : nat :=
  ((if startsWith pat s then 1 else 0) +
   match s with
   | EmptyString => 0
   | String _ s' => occurrences pat s'
   end)%nat.

Definition dollar : ascii := "$"%char.

(** ECMAScript's GetSubstitution for a string pattern (no captures):
    in the replacement template, [$$] stands for a dollar sign, [$&] for
    the matched text, [$`] for the text before the match and [$'] for
    the text after it; every other character stands for itself. *)
Fixpoint GetSubstitution (matched pre post template : string) : string :=
  match template with
  | EmptyString => EmptyString
  | String c r =>
      if Ascii.eqb c dollar then
        match r with
        | String d r' =>
            if Ascii.eqb d dollar then String dollar (GetSubstitution matched pre post r')
            else if Ascii.eqb d "&"%char then matched ++ GetSubstitution matched pre post r'
            else if Ascii.eqb d "`"%char then pre ++ GetSubstitution matched pre post r'
            else if Ascii.eqb d "'"%char then post ++ GetSubstitution matched pre post r'
            else String c (GetSubstitution matched pre post r)
        | EmptyString => String c EmptyString
        end
      else String c (GetSubstitution matched pre post r)
  end.

(** [s.replace(pat, template)] for a string [pat]: only the first
    occurrence is replaced, by the expansion of the template. *)
Definition replace (s pat template : string) : string :=
  match search pat s with
  | Some (pre, post) => pre ++ GetSubstitution pat pre post template ++ post
  | None => s
  end.

(** [s.split(sep)] for a one-character separator. *)
Fixpoint split (sep : ascii) (s : string) : list string :=
  match s with
  | EmptyString => [EmptyString]
  | String c r =>
      if Ascii.eqb c sep then EmptyString :: split sep r
      else match split sep r with
           | h :: t => String c h :: t
           | [] => [String c EmptyString]
           end
  end.

(** Whether the character [c] occurs in [s]. *)
Fixpoint mentions (c : ascii) (s : string) : bool :=
  match s with
  | EmptyString => false
  | String x r => Ascii.eqb x c || mentions c r
  end.

(** [a.join(sep)]. *)
Fixpoint join (sep : string) (a : list string) : string :=
  match a with
  | [] => EmptyString
  | [x] => x
  | x :: r => x ++ sep ++ join sep r
  end.

(** The clamping of a relative index that [slice] and [splice] share:
    a negative index counts from the end, and the result lies in
    [0 .. len]. *)
Definition relativeIndex (len : nat) (i : Z) : nat :=
  if i <? 0 then Z.to_nat (Z.max (Z.of_nat len + i) 0)
  else Z.to_nat (Z.min i (Z.of_nat len)).

(** [a.slice(start, end)]; an [undefined] end is the length. *)
Definition slice {A} (a : list A) (start : Z) (end_ : option Z) : list A :=
  let k := relativeIndex (length a) start in
  let final := match end_ with
               | Some e => relativeIndex (length a) e
               | None => length a
               end in
  take (final - k) (drop k a).

(** [a.splice(start, 0, item)]: [item] is put in at the clamped index,
    nothing is removed. *)
Definition splice_insert {A} (a : list A) (start : Z) (item : A) : list A :=
  let k := relativeIndex (length a) start in
  take k a ++ item :: drop k a.

End JS.

(** ** Paths, the file system and the process *)

(** A resolved absolute path is the list of its components; the root
    directory is the empty list. *)
Module Path.

(** The normalisation that [path.resolve] and [path.join] perform on the
    segments of a path: empty and ["."] segments are dropped and [".."]
    goes up one level (staying at the root when already there). *)
Fixpoint normalize (acc segs : list string) : list string :=
  match segs with
  | [] => acc
  | s :: r =>
      if String.eqb s "" || String.eqb s "." then normalize acc r
      else if String.eqb s ".." then normalize (removelast acc) r
      else normalize (acc ++ [s]) r
  end.

(** [resolve(path)] of Node's [path] module (POSIX), for a process whose
    working directory is [cwd]: an absolute [path] is normalised on its
    own, a relative one is taken from [cwd]. *)
Definition resolve (cwd : list string) (path : string) : list string :=
  normalize (if JS.startsWith "/" path then [] else cwd) (JS.split "/"%char path).

(** [dirname] of a resolved path; the root is its own parent. *)
Definition dirname (p : list string) : list string := removelast p.

(** [join(base, seg1, seg2, ...)] for a resolved [base]. *)
Definition join (base : list string) (segs : list string) : list string :=
  normalize base segs.

(** The resolved path printed back as a string. *)
Definition toString (p : list string) : string := "/" ++ JS.join "/" p.

End Path.

Inductive Node : Type :=
| File (content : string)
| Dir.

(** What JavaScript code of the tools can catch: the faults of Node's [fs]
    module, a [TypeError] for a missing argument, the error object thrown
    by [execSync] (its [message], [stderr] and [stdout] properties, the
    last two absent when no child was spawned), and a fault of the
    reasoning engine. *)
Inductive Exn : Type :=
| ENOENT
| EISDIR
| ENOTDIR
| EEXIST
| TypeError
| ExecError (message : string) (stderr stdout : option string)
| EngineFault (message : string).

(** The state outside the JavaScript heap: the working directory of the
    process, the files, the shell commands run so far (oldest first) and
    what the process wrote on its standard output. *)
Record World : Type := mkWorld {
  cwd : list string;
  files : gmap (list string) Node;
  executed : list string;
  written : list string
}.

Definition with_files (fs : gmap (list string) Node) (w : World) : World :=
  {| cwd := cwd w; files := fs; executed := executed w; written := written w |}.

(** Computations that may throw and act on the world. *)
Definition M (A : Type) : Type := World -> (Exn + A) * World.

Definition ret {A} (a : A) : M A := fun w => (inr a, w).
Definition bind {A B} (c : M A) (k : A -> M B) : M B :=
  fun w => match c w with
           | (inr a, w') => k a w'
           | (inl e, w') => (inl e, w')
           end.

Notation "'do' x <- c ; k" := (bind c (fun x => k))
  (at level 10, x name, c at level 100, k at level 200).
Notation "'do_' c ; k" := (bind c (fun _ => k))
  (at level 10, c at level 100, k at level 200).

(** Node's [fs] module, as far as the tools use it, over the files of
    the world. *)
Module Fs.

(** The node at a resolved path; the root always is a directory. *)
Definition node_at (fs : gmap (list string) Node) (p : list string) : option Node :=
  match p with
  | [] => Some Dir
  | _ => fs !! p
  end.

Definition is_dir (fs : gmap (list string) Node) (p : list string) : bool :=
  match node_at fs p with Some Dir => true | _ => false end.

Definition is_file (fs : gmap (list string) Node) (p : list string) : bool :=
  match node_at fs p with Some (File _) => true | _ => false end.

(** [existsSync(p)]. *)
Definition existsSync (p : list string) (w : World) : bool :=
  match node_at (files w) p with Some _ => true | None => false end.

(** [readFileSync(p, "utf-8")]. *)
Definition readFileSync (p : list string) : M string :=
  fun w => match node_at (files w) p with
           | Some (File c) => (inr c, w)
           | Some Dir => (inl EISDIR, w)
           | None => (inl ENOENT, w)
           end.

(** [writeFileSync(p, data, "utf-8")]: [data] has to be there; a
    directory cannot be written; an existing file is overwritten; a new
    file is made when its parent is a directory. *)
Definition writeFileSync (p : list string) (data : option string) : M unit :=
  fun w => match data with
           | None => (inl TypeError, w)
           | Some t =>
               match node_at (files w) p with
               | Some Dir => (inl EISDIR, w)
               | Some (File _) => (inr tt, with_files (<[p := File t]> (files w)) w)
               | None =>
                   match node_at (files w) (Path.dirname p) with
                   | Some Dir => (inr tt, with_files (<[p := File t]> (files w)) w)
                   | Some (File _) => (inl ENOTDIR, w)
                   | None => (inl ENOENT, w)
                   end
               end
           end.

(** The walk of [mkdirSync(p, {recursive: true})] below [base]: each
    missing directory on the way is made, an existing one is entered,
    and a regular file stops the walk with a fault, the directories made
    before it staying. *)
Fixpoint mkdirp (base rest : list string) (fs : gmap (list string) Node)
  : option Exn * gmap (list string) Node :=
  match rest with
  | [] => (None, fs)
  | c :: rest' =>
      let d := (base ++ [c])%list in
      match fs !! d with
      | Some (File _) => (Some (match rest' with [] => EEXIST | _ => ENOTDIR end), fs)
      | Some Dir => mkdirp d rest' fs
      | None => mkdirp d rest' (<[d := Dir]> fs)
      end
  end.

(** [mkdirSync(p, {recursive: true})]. *)
Definition mkdirSync_recursive (p : list string) : M unit :=
  fun w => match mkdirp [] p (files w) with
           | (None, fs) => (inr tt, with_files fs w)
           | (Some e, fs) => (inl e, with_files fs w)
           end.

(** The proper, non-root ancestors of a resolved path. *)
Definition ancestors (p : list string) : list (list string) :=
  map (fun k => take k p) (seq 1 (length p - 1)).

(** A path at which a regular file can be written once its missing
    parent directories are made: it is no directory, and no ancestor of
    it is a regular file. *)
Definition writable (fs : gmap (list string) Node) (p : list string) : bool :=
  negb (is_dir fs p) && forallb (fun d => negb (is_file fs d)) (ancestors p).

End Fs.

(** ** The file-editing tool ([getTextEditorTool] of [src/agent/tools.ts]) *)

Module getTextEditorTool.

(** The configuration handed to the provider's tool definition. *)
Definition maxCharacters : Z := 50000.

(** The argument of [execute]. *)
Record Input : Type := mkInput {
  command : string;
  path : string;
  file_text : option string;
  old_str : option string;
  new_str : option string;
  insert_line : option Z;
  insert_text : option string;
  view_range : option (list Z)
}.

(** A missing string argument that JavaScript coerces to a string. *)
Definition ToString (o : option string) : string := default "undefined" o.

Definition execute (i : Input) : M string :=
  fun w =>
    let fullPath := Path.resolve (cwd w) (path i) in
    if String.eqb (command i) "view" then
      if negb (Fs.existsSync fullPath w)
      then ret ("Error: File " ++ path i ++ " not found") w
      else (do content <- Fs.readFileSync fullPath;
            match view_range i with
            | Some range =>
                let lines := JS.split JS.LF content in
                let start := match range !! 0%nat with Some a => a - 1 | None => 0 end in
                ret (JS.join JS.NL (JS.slice lines start (range !! 1%nat)))
            | None => ret content
            end) w
    else if String.eqb (command i) "create" then
      (do_ Fs.mkdirSync_recursive (Path.dirname fullPath);
       do_ Fs.writeFileSync fullPath (file_text i);
       ret ("File created: " ++ path i)) w
    else if String.eqb (command i) "str_replace" then
      if negb (Fs.existsSync fullPath w)
      then ret ("Error: File " ++ path i ++ " not found for str_replace") w
      else (do current <- Fs.readFileSync fullPath;
            if negb (JS.includes current (ToString (old_str i)))
            then ret ("Error: old_str not found in " ++ path i)
            else
              let updated := JS.replace current (ToString (old_str i)) (ToString (new_str i)) in
              do_ Fs.writeFileSync fullPath (Some updated);
              ret ("File updated: " ++ path i)) w
    else if String.eqb (command i) "insert" then
      if negb (Fs.existsSync fullPath w)
      then ret ("Error: File " ++ path i ++ " not found for insert") w
      else (do content <- Fs.readFileSync fullPath;
            let lines := JS.split JS.LF content in
            let lines' := JS.splice_insert lines (default 0 (insert_line i))
                            (default "" (insert_text i)) in
            do_ Fs.writeFileSync fullPath (Some (JS.join JS.NL lines'));
            ret ("Text inserted at line "
                 ++ match insert_line i with Some n => pretty n | None => "undefined" end
                 ++ " in " ++ path i)) w
    else ret ("Unknown command: " ++ command i) w.

(** The four calls, with the arguments they do not use absent. *)
Definition view (p : string) : Input :=
  mkInput "view" p None None None None None None.
Definition view_lines (p : string) (range : list Z) : Input :=
  mkInput "view" p None None None None None (Some range).
Definition create (p t : string) : Input :=
  mkInput "create" p (Some t) None None None None None.
Definition str_replace (p old new : string) : Input :=
  mkInput "str_replace" p None (Some old) (Some new) None None None.
Definition insert (p : string) (i : Z) (text : string) : Input :=
  mkInput "insert" p None None None (Some i) (Some text) None.

End getTextEditorTool.

(** ** The command-execution tool ([getBashTool] of [src/agent/tools.ts]) *)

(** Node's [child_process] module, as far as the tool uses it. *)
Module child_process.

(** The options of [execSync]. *)
Record Options : Type := mkOptions {
  timeout : Z;
  encoding : string;
  maxBuffer : Z
}.

(** What became of the shell that [execSync] spawned under its options:
    it ran to its end with an exit status, it was killed when the
    timeout expired, it was killed when an output stream outgrew
    [maxBuffer], or it could not be spawned. *)
Inductive ChildResult : Type :=
| Exited (status : Z) (stdout stderr : string)
| TimedOut (stdout stderr : string)
| Overflowed (stdout stderr : string)
| SpawnFailed (message : string).

(** The fates that are failures: all but an exit with status 0. *)
Definition failed (c : ChildResult) : bool :=
  match c with
  | Exited status _ _ => negb (status =? 0)
  | _ => true
  end.

(** What was captured of the two streams of the child, if there was one. *)
Definition captured_stdout (c : ChildResult) : option string :=
  match c with
  | Exited _ out _ | TimedOut out _ | Overflowed out _ => Some out
  | SpawnFailed _ => None
  end.

Definition captured_stderr (c : ChildResult) : option string :=
  match c with
  | Exited _ _ err | TimedOut _ err | Overflowed _ err => Some err
  | SpawnFailed _ => None
  end.

(** The shell and the commands it runs are outside the program: a shell
    is any function from the options, the command line and the files to
    the fate of the child and the files it leaves. *)
Definition Shell : Type :=
  Options -> string -> gmap (list string) Node -> ChildResult * gmap (list string) Node.

(** [execSync(command, options)]: the standard output of a child that
    exited with status 0 is returned, every other fate is thrown as an
    error object carrying a message and the two captured streams (none
    when there was no child). The command is noted in the world. *)
Definition execSync (sh : Shell) (command : string) (options : Options) : M string :=
  fun w =>
    let '(child, fs) := sh options command (files w) in
    let w' := {| cwd := cwd w; files := fs;
                 executed := (executed w ++ [command])%list; written := written w |} in
    match child with
    | Exited status stdout stderr =>
        if status =? 0 then (inr stdout, w')
        else (inl (ExecError ("Command failed: " ++ command ++ JS.NL ++ stderr)
                     (Some stderr) (Some stdout)), w')
    | TimedOut stdout stderr =>
        (inl (ExecError "spawnSync /bin/sh ETIMEDOUT" (Some stderr) (Some stdout)), w')
    | Overflowed stdout stderr =>
        (inl (ExecError "spawnSync /bin/sh ENOBUFS" (Some stderr) (Some stdout)), w')
    | SpawnFailed message => (inl (ExecError message None None), w')
    end.

End child_process.

(** The properties of a caught error object that the tools read. *)
Definition Exn_message (e : Exn) : string :=
  match e with
  | ENOENT => "ENOENT: no such file or directory"
  | EISDIR => "EISDIR: illegal operation on a directory"
  | ENOTDIR => "ENOTDIR: not a directory"
  | EEXIST => "EEXIST: file already exists"
  | TypeError => "TypeError"
  | ExecError message _ _ => message
  | EngineFault message => message
  end.

Definition Exn_stderr (e : Exn) : option string :=
  match e with ExecError _ stderr _ => stderr | _ => None end.

Definition Exn_stdout (e : Exn) : option string :=
  match e with ExecError _ _ stdout => stdout | _ => None end.

Module getBashTool.

(** The argument of [execute]. *)
Record Input : Type := mkInput {
  command : string;
  restart : option bool
}.

(** [s || fallback] for a string that may be absent: the absent and the
    empty string are falsy. *)
Definition orElse (o : option string) (fallback : string) : string :=
  match o with
  | Some s => if String.eqb s "" then fallback else s
  | None => fallback
  end.

Definition options : child_process.Options :=
  child_process.mkOptions 30000 "utf-8" (1024 * 1024).

Definition execute (sh : child_process.Shell) (i : Input) : M string :=
  fun w =>
    match restart i with
    | Some true => ret "Bash session restarted" w
    | _ =>
        match child_process.execSync sh (command i) options w with
        | (inr result, w') =>
            ret (orElse (Some result) "Command executed successfully (no output)") w'
        | (inl error, w') =>
            ret ("Error: " ++ Exn_message error ++ JS.NL
                 ++ "Stderr: " ++ orElse (Exn_stderr error) "" ++ JS.NL
                 ++ "Stdout: " ++ orElse (Exn_stdout error) "") w'
        end
    end.

Definition run (cmd : string) : Input := mkInput cmd None.

End getBashTool.

(** ** The agent loop *)

(** The loop itself is the [generateText] and [streamText] of the [ai]
    package, which the repository calls and does not contain. *)
Module ai.

Record Usage : Type := mkUsage {
  promptTokens : N;
  completionTokens : N;
  totalTokens : N
}.

Definition noUsage : Usage := mkUsage 0 0 0.

Definition addUsage (a b : Usage) : Usage :=
  mkUsage (promptTokens a + promptTokens b)
          (completionTokens a + completionTokens b)
          (totalTokens a + totalTokens b).

Definition sumUsage (l : list Usage) : Usage := fold_left addUsage l noUsage.

(** The arguments of a tool call, already parsed. *)
Inductive ToolInput : Type :=
| EditorInput (i : getTextEditorTool.Input)
| BashInput (i : getBashTool.Input).

Record ToolCall : Type := mkToolCall {
  toolCallId : string;
  toolName : string;
  input : ToolInput
}.

Record ToolResult : Type := mkToolResult {
  callId : string;
  output : string;
  isError : bool
}.

(** A tool accepts the inputs of its schema ([None] for the others) and
    executes them. *)
Definition Tool : Type := ToolInput -> option (M string).

(** What [execute] did, as the result that the loop hands back to the
    engine. The tools of the repository return a plain string and set no
    flag of their own: a returned string is the output of an ordinary
    result, and only an exception that escaped [execute] makes an error
    result. *)
Definition toToolResult (id : string) (r : Exn + string) : ToolResult :=
  match r with
  | inr out => mkToolResult id out false
  | inl e => mkToolResult id (Exn_message e) true
  end.

Fixpoint findTool (tools : list (string * Tool)) (name : string) : option Tool :=
  match tools with
  | [] => None
  | (n, t) :: rest => if String.eqb n name then Some t else findTool rest name
  end.

(** One tool call: a failure of any kind becomes a result, never an
    exception of the loop. *)
Definition callTool (tools : list (string * Tool)) (c : ToolCall) (w : World)
  : ToolResult * World :=
  match findTool tools (toolName c) with
  | None => (mkToolResult (toolCallId c) ("NoSuchToolError: " ++ toolName c) true, w)
  | Some tool =>
      match tool (input c) with
      | None => (mkToolResult (toolCallId c) ("InvalidToolInputError: " ++ toolName c) true, w)
      | Some run => let '(r, w') := run w in (toToolResult (toolCallId c) r, w')
      end
  end.

(** The calls of one turn, one after the other in the order received. *)
Fixpoint callTools (tools : list (string * Tool)) (calls : list ToolCall) (w : World)
  : list ToolResult * World :=
  match calls with
  | [] => ([], w)
  | c :: rest =>
      let '(r, w1) := callTool tools c w in
      let '(rs, w2) := callTools tools rest w1 in
      (r :: rs, w2)
  end.

Inductive Message : Type :=
| SystemMessage (content : string)
| UserMessage (content : string)
| AssistantMessage (content : string) (calls : list ToolCall)
| ToolMessage (results : list ToolResult).

(** One answer of the reasoning engine: its text as the pieces in which
    it was produced, the tool calls it requests (none: it is done) and
    the tokens the answer cost. *)
Record Turn : Type := mkTurn {
  deltas : list string;
  toolCalls : list ToolCall;
  turnUsage : Usage
}.

(** The reasoning engine: from the transcript to an answer or a fault. *)
Definition LanguageModel : Type := list Message -> Exn + Turn.

Record Step : Type := mkStep {
  stepText : string;
  stepToolCalls : list ToolCall;
  stepToolResults : list ToolResult;
  stepUsage : Usage
}.

Definition StopCondition : Type := list Step -> bool.

(** [stepCountIs(n)]. *)
Definition stepCountIs (n : nat) : StopCondition :=
  fun steps => Nat.eqb (length steps) n.

Record Settings : Type := mkSettings {
  model : LanguageModel;
  system : string;
  prompt : string;
  tools : list (string * Tool);
  stopWhen : StopCondition
}.

Inductive Finish : Type :=
| Done
| StepLimitExceeded.

Definition concatText (l : list string) : string := String.concat "" l.

Definition turnMessages (text : string) (calls : list ToolCall) (results : list ToolResult)
  : list Message :=
  match calls with
  | [] => [AssistantMessage text []]
  | _ => [AssistantMessage text calls; ToolMessage results]
  end.

(** *** The blocking loop *)

Record LoopState : Type := mkLoopState {
  stepIndex : nat;
  transcript : list Message;
  accumulatedText : string;
  usageTotals : Usage;
  steps : list Step
}.

Record GenerateTextResult : Type := mkGenerateTextResult {
  text : string;
  usage : Usage;
  resultSteps : list Step;
  finish : Finish
}.

Definition finishWith (st : LoopState) (f : Finish) : GenerateTextResult :=
  mkGenerateTextResult (accumulatedText st) (usageTotals st) (steps st) f.

(** Modelled from the spec: the turn-by-turn state machine of the agent
    loop (section 4.3), which is code of the [ai] package and not under
    [src/]. While running and below the step limit, the transcript is
    presented to the engine; an answer without tool calls ends the loop
    ([Done]); otherwise each call is dispatched in order, the results
    are appended, the step index goes up by one and the loop goes on.
    Text and usage of every turn are accumulated. A fault of the engine
    ends the loop as a failure. The step limit is the [stopWhen] of the
    source; [fuel] bounds the number of iterations of the model and
    [None] means that it ran out. *)
Fixpoint loop (fuel : nat) (cfg : Settings) (st : LoopState) (w : World)
  : option (Exn + GenerateTextResult) * World :=
  match fuel with
  | O => (None, w)
  | S fuel' =>
      if stopWhen cfg (steps st) then (Some (inr (finishWith st StepLimitExceeded)), w)
      else
        match model cfg (transcript st) with
        | inl e => (Some (inl e), w)
        | inr turn =>
            let txt := concatText (deltas turn) in
            let '(results, w') := callTools (tools cfg) (toolCalls turn) w in
            let st' := {|
              stepIndex := S (stepIndex st);
              transcript := transcript st ++ turnMessages txt (toolCalls turn) results;
              accumulatedText := accumulatedText st ++ txt;
              usageTotals := addUsage (usageTotals st) (turnUsage turn);
              steps := steps st ++ [mkStep txt (toolCalls turn) results (turnUsage turn)]
            |} in
            match toolCalls turn with
            | [] => (Some (inr (finishWith st' Done)), w')
            | _ => loop fuel' cfg st' w'
            end
        end
  end.

Definition initialState (cfg : Settings) : LoopState :=
  mkLoopState 0 [SystemMessage (system cfg); UserMessage (prompt cfg)] "" noUsage [].

(** Modelled from the spec: [generateText], the blocking mode of the
    loop above, started in [Running(0)] on the system instructions and
    the request. *)
Definition generateText (fuel : nat) (cfg : Settings) (w : World)
  : option (Exn + GenerateTextResult) * World :=
  loop fuel cfg (initialState cfg) w.

(** What the blocking loop keeps true of its state: the step index
    counts the recorded steps, and the accumulated text and usage are
    those of the recorded steps. *)
Definition accumulated (st : LoopState) : Prop :=
  stepIndex st = length (steps st) /\
  accumulatedText st = concatText (map stepText (steps st)) /\
  usageTotals st = sumUsage (map stepUsage (steps st)).

(** *** The streaming loop *)

Record StreamState : Type := mkStreamState {
  s_transcript : list Message;
  s_emitted : list string;
  s_steps : list Step
}.

Record StreamTextResult : Type := mkStreamTextResult {
  textStream : list string;
  s_text : string;
  s_usage : Usage;
  s_resultSteps : list Step;
  s_finish : Finish
}.

Definition settle (st : StreamState) (f : Finish) : StreamTextResult :=
  mkStreamTextResult (s_emitted st) (concatText (s_emitted st))
                     (sumUsage (map stepUsage (s_steps st))) (s_steps st) f.

(** Modelled from the spec: the streaming mode of the same state machine
    (section 4.3, "Streaming variant"). The pieces of every answer go to
    the text stream as they are produced; the text, the usage and the
    steps are settled when the loop ends, the text from the pieces that
    were streamed and the usage from the recorded steps. *)
Fixpoint streamLoop (fuel : nat) (cfg : Settings) (st : StreamState) (w : World)
  : option (Exn + StreamTextResult) * World :=
  match fuel with
  | O => (None, w)
  | S fuel' =>
      if stopWhen cfg (s_steps st) then (Some (inr (settle st StepLimitExceeded)), w)
      else
        match model cfg (s_transcript st) with
        | inl e => (Some (inl e), w)
        | inr turn =>
            let emitted := (s_emitted st ++ deltas turn)%list in
            let txt := concatText (deltas turn) in
            let '(results, w') := callTools (tools cfg) (toolCalls turn) w in
            let st' := {|
              s_transcript := s_transcript st ++ turnMessages txt (toolCalls turn) results;
              s_emitted := emitted;
              s_steps := s_steps st ++ [mkStep txt (toolCalls turn) results (turnUsage turn)]
            |} in
            match toolCalls turn with
            | [] => (Some (inr (settle st' Done)), w')
            | _ => streamLoop fuel' cfg st' w'
            end
        end
  end.

(** Modelled from the spec: [streamText], the streaming mode. *)
Definition streamText (fuel : nat) (cfg : Settings) (w : World)
  : option (Exn + StreamTextResult) * World :=
  streamLoop fuel cfg
    (mkStreamState [SystemMessage (system cfg); UserMessage (prompt cfg)] [] []) w.

(** The settled result of the streaming mode, read as a result of the
    blocking mode. *)
Definition settled (r : StreamTextResult) : GenerateTextResult :=
  mkGenerateTextResult (s_text r) (s_usage r) (s_resultSteps r) (s_finish r).

Definition settledOutcome (o : option (Exn + StreamTextResult))
  : option (Exn + GenerateTextResult) :=
  match o with
  | None => None
  | Some (inl e) => Some (inl e)
  | Some (inr r) => Some (inr (settled r))
  end.

(** A state of the blocking loop and a state of the streaming loop that
    stand for the same point of a run. *)
Definition corresponds (st : LoopState) (sst : StreamState) : Prop :=
  transcript st = s_transcript sst /\
  steps st = s_steps sst /\
  accumulatedText st = concatText (s_emitted sst) /\
  usageTotals st = sumUsage (map stepUsage (s_steps sst)).

End ai.

(** ** The request handler ([handleGenerate]) *)

Record GenerateRequest : Type := mkGenerateRequest {
  topic : string;
  model : option string
}.

Record Response : Type := mkResponse {
  requestId : string;
  text : string;
  usage : ai.Usage;
  steps : nat
}.

(** The double quote. *)
Definition DQUOTE : string := String (Ascii.ascii_of_nat 34) EmptyString.

Section Handlers.

(** What the handler is given from outside the repository: the shell of
    the host, the gateway from a model identifier to a reasoning engine,
    and the system prompt of [src/agent/system-prompt.ts], whose text
    plays no part here. *)
Variable sh : child_process.Shell.
Variable gateway : string -> ai.LanguageModel.
Variable SYSTEM_PROMPT : string.

(** The two tools as the loop sees them. *)
Definition editorTool : ai.Tool :=
  fun i => match i with
           | ai.EditorInput e => Some (getTextEditorTool.execute e)
           | _ => None
           end.

Definition bashTool : ai.Tool :=
  fun i => match i with
           | ai.BashInput b => Some (getBashTool.execute sh b)
           | _ => None
           end.

(** The settings that both variants pass: model, system prompt, prompt,
    the two tools and [stopWhen: stepCountIs(20)]. *)
Definition settings (body : GenerateRequest) (outputDir : list string) : ai.Settings :=
  {| ai.model := gateway (getBashTool.orElse (model body) "anthropic/claude-haiku-4.5");
     ai.system := SYSTEM_PROMPT;
     ai.prompt := "Create a Manim animation for the topic: " ++ DQUOTE ++ topic body ++ DQUOTE
                  ++ JS.NL ++ JS.NL
                  ++ "Write all output files (JSON, TXT, PY) into the directory: "
                  ++ Path.toString outputDir;
     ai.tools := [("str_replace_based_edit_tool", editorTool); ("bash", bashTool)];
     ai.stopWhen := ai.stepCountIs 20 |}.

(** [handleGenerate] of [src/api/generate.ts], the blocking variant.
    [uuid] is the value that [randomUUID()] draws; logging through
    [console] is left out. *)
Definition handleGenerate (fuel : nat) (uuid : string) (body : GenerateRequest) (w : World)
  : option (Exn + Response) * World :=
  let requestId := uuid in
  let outputDir := Path.join (cwd w) ["generated"; requestId] in
  match Fs.mkdirSync_recursive outputDir w with
  | (inl e, w1) => (Some (inl e), w1)
  | (inr _, w1) =>
      match ai.generateText fuel (settings body outputDir) w1 with
      | (None, w2) => (None, w2)
      | (Some (inl e), w2) => (Some (inl e), w2)
      | (Some (inr result), w2) =>
          (Some (inr {| requestId := requestId;
                        text := ai.text result;
                        usage := ai.usage result;
                        steps := length (ai.resultSteps result) |}), w2)
      end
  end.

(** [process.stdout.write(chunk)]. *)
Definition stdout_write (chunk : string) (w : World) : World :=
  {| cwd := cwd w; files := files w; executed := executed w;
     written := (written w ++ [chunk])%list |}.

(** [handleGenerate] of the streaming variant of the same file: the
    text stream is copied to the standard output piece by piece, then a
    line feed, and the text, the usage and the steps are awaited. *)
Definition handleGenerate_stream (fuel : nat) (uuid : string) (body : GenerateRequest)
  (w : World) : option (Exn + Response) * World :=
  let requestId := uuid in
  let outputDir := Path.join (cwd w) ["generated"; requestId] in
  match Fs.mkdirSync_recursive outputDir w with
  | (inl e, w1) => (Some (inl e), w1)
  | (inr _, w1) =>
      match ai.streamText fuel (settings body outputDir) w1 with
      | (None, w2) => (None, w2)
      | (Some (inl e), w2) => (Some (inl e), w2)
      | (Some (inr result), w2) =>
          let w3 := fold_left (fun w textPart => stdout_write textPart w)
                              (ai.textStream result) w2 in
          let w4 := stdout_write JS.NL w3 in
          let '(text, usage, steps) :=
            (ai.s_text result, ai.s_usage result, ai.s_resultSteps result) in
          (Some (inr {| requestId := requestId;
                        text := text;
                        usage := usage;
                        steps := length steps |}), w4)
      end
  end.

End Handlers.

(** The aggregate that the two variants are compared on. *)
Definition aggregate (r : option (Exn + Response)) : option (Exn + string * ai.Usage * nat) :=
  match r with
  | None => None
  | Some (inl e) => Some (inl e)
  | Some (inr resp) => Some (inr (text resp, usage resp, steps resp))
  end.

(** ** Sample worlds, shells and engines

    Concrete inputs on which the properties below are exercised. *)

Module Samples.

Import getTextEditorTool.

(** A process in [/srv/app] on an empty file system. *)
Definition w0 : World := mkWorld ["srv"; "app"] ∅ [] [].

(** The same process after the tool created [out/a.txt]: [out] now is a
    directory. *)
Definition w_out : World := (execute (create "out/a.txt" "hello") w0).2.

(** A scene file with a placeholder for a formula. *)
Definition w_scene : World :=
  (execute (create "scene.py" "formula = PLACEHOLDER") w0).2.

(** A file of three lines. *)
Definition w_lines : World :=
  (execute (create "notes.txt" ("one" ++ JS.NL ++ "two" ++ JS.NL ++ "three")) w0).2.

(** A text of [n] letters. *)
Fixpoint letters (n : nat) : string :=
  match n with
  | O => EmptyString
  | S n' => String "a"%char (letters n')
  end.

(** A text one character longer than the configured maximum, and a
    file that holds it. *)
Definition big : string := letters (Z.to_nat (maxCharacters + 1)).

Definition holding (content : string) : World :=
  mkWorld ["srv"; "app"] {[ ["srv"; "app"; "big.txt"] := File content ]} [] [].

Definition w_big : World := holding big.

(** A shell that knows a handful of commands and leaves the files
    alone: [true] and [echo hi] succeed, [false] and a division by zero
    in Python exit with status 1, [sleep 60] runs into the timeout,
    [cat report.txt] prints a text that looks like a failure, and
    nothing else can be spawned. *)
Definition shell : child_process.Shell :=
  fun _ cmd fs =>
    if String.eqb cmd "true" then (child_process.Exited 0 "" "", fs)
    else if String.eqb cmd "echo hi" then (child_process.Exited 0 ("hi" ++ JS.NL) "", fs)
    else if String.eqb cmd "false" then (child_process.Exited 1 "" "", fs)
    else if String.eqb cmd "python3 -c 'print(1/0)'" then
      (child_process.Exited 1 ""
         ("ZeroDivisionError: division by zero" ++ JS.NL), fs)
    else if String.eqb cmd "sleep 60" then (child_process.TimedOut "" "", fs)
    else if String.eqb cmd "cat report.txt" then
      (child_process.Exited 0
         ("Error: Command failed: false" ++ JS.NL ++ JS.NL
          ++ "Stderr: " ++ JS.NL ++ "Stdout: ") "", fs)
    else (child_process.SpawnFailed "spawnSync /bin/sh ENOENT", fs).

(** An engine that never stops asking: every answer carries some text
    and a call of the command-execution tool. *)
Definition busy_engine : string -> ai.LanguageModel :=
  fun _ _ =>
    inr (ai.mkTurn ["Working"; "..."]
           [ai.mkToolCall "call" "bash" (ai.BashInput (getBashTool.run "echo hi"))]
           (ai.mkUsage 10 5 15)).

Definition request : GenerateRequest := mkGenerateRequest "Pythagorean theorem" None.

(** An engine that follows a script: on the first turn it asks for a file
    to be created and then viewed, in one answer; on the second it asks
    for a failing command; after that it is done. *)
Definition scripted_engine : string -> ai.LanguageModel :=
  fun _ msgs =>
    match length msgs with
    | 2%nat =>
        inr (ai.mkTurn ["Writing. "]
               [ai.mkToolCall "call-1" "str_replace_based_edit_tool"
                  (ai.EditorInput (create "out.txt" "hello"));
                ai.mkToolCall "call-2" "str_replace_based_edit_tool"
                  (ai.EditorInput (view "out.txt"))]
               (ai.mkUsage 100 20 120))
    | 4%nat =>
        inr (ai.mkTurn ["Checking. "]
               [ai.mkToolCall "call-3" "bash"
                  (ai.BashInput (getBashTool.run "python3 -c 'print(1/0)'"))]
               (ai.mkUsage 150 10 160))
    | _ => inr (ai.mkTurn ["Done"; "."] [] (ai.mkUsage 170 5 175))
    end.

End Samples.

(** ** Further definitions

    Used by the properties of the code that come after the claims. *)

Module Further.

Import getTextEditorTool.

(** The text [s] with every dollar sign doubled: the template that
    [String.prototype.replace] expands back to [s]. *)
Fixpoint escapeDollars (s : string) : string :=
  match s with
  | EmptyString => EmptyString
  | String c r =>
      if Ascii.eqb c JS.dollar then String JS.dollar (String JS.dollar (escapeDollars r))
      else String c (escapeDollars r)
  end.

(** What a call of the file-editing tool addressed to the resolved path
    [p] may do to the world: the process is as it was; every node at
    another path stays; a node at [p] stays a node; and a regular file
    found afterwards at another path was there before. *)
Definition frame (p : list string) (w w' : World) : Prop :=
  cwd w' = cwd w /\ executed w' = executed w /\ written w' = written w /\
  (forall q n, q <> p -> files w !! q = Some n -> files w' !! q = Some n) /\
  (is_Some (files w !! p) -> is_Some (files w' !! p)) /\
  (forall q c, q <> p -> files w' !! q = Some (File c) -> files w !! q = Some (File c)).

(** A call with a command and a path only. *)
Definition bare (cmd p : string) : Input :=
  mkInput cmd p None None None None None None.

(** [create] without its [file_text]. *)
Definition create_without_text (p : string) : Input := bare "create" p.

(** A file in which [cat] occurs twice. *)
Definition w_cats : World :=
  (execute (create "pets.txt" "a cat and a cat") Samples.w0).2.


End Further.

(** * Properties *)

(** ** Facts about the JavaScript primitives *)

#[local] Arguments String.append !_ _ / : simpl nomatch.

Section JSFacts.

Lemma string_app_assoc (a b c : string) : (a ++ b) ++ c = a ++ b ++ c.
Proof. induction a as [|x a IH]; simpl; [reflexivity | now rewrite IH]. Qed.

Lemma string_app_nil_r (a : string) : a ++ "" = a.
Proof. induction a as [|x a IH]; simpl; [reflexivity | now rewrite IH]. Qed.

Lemma string_length_app (a b : string) :
  String.length (a ++ b) = (String.length a + String.length b)%nat.
Proof. induction a as [|x a IH]; simpl; [reflexivity | now rewrite IH]. Qed.

Lemma startsWith_app (p s : string) : JS.startsWith p (p ++ s) = true.
Proof.
  induction p as [|x p IH]; simpl; [reflexivity |].
  now rewrite Ascii.eqb_refl.
Qed.

Lemma startsWith_skip (p s : string) :
  JS.startsWith p s = true -> s = p ++ JS.skip (String.length p) s.
Proof.
  revert s; induction p as [|x p IH]; intros s H; simpl in *; [reflexivity |].
  destruct s as [|y s]; [discriminate |].
  destruct (Ascii.eqb_spec x y) as [->|]; [|discriminate].
  f_equal. now apply IH.
Qed.

(** What [search] finds is an occurrence. *)
Lemma search_sound (pat s pre post : string) :
  JS.search pat s = Some (pre, post) -> s = pre ++ pat ++ post.
Proof.
  revert pre post; induction s as [|c s IH]; intros pre post; simpl.
  - destruct (JS.startsWith pat "") eqn:E; [|discriminate].
    intros [= <- <-]. simpl. now apply startsWith_skip.
  - destruct (JS.startsWith pat (String c s)) eqn:E.
    + intros [= <- <-]. simpl. now apply startsWith_skip.
    + destruct (JS.search pat s) as [[pre' post']|]; [|discriminate].
      intros [= <- <-]. simpl. f_equal. now apply IH.
Qed.

(** [search] fails exactly on the texts without an occurrence. *)
Lemma search_None_occurrences (pat s : string) :
  JS.search pat s = None <-> JS.occurrences pat s = 0%nat.
Proof.
  induction s as [|c s IH]; simpl.
  - destruct (JS.startsWith pat ""); split; intros; try discriminate; try reflexivity.
  - destruct (JS.startsWith pat (String c s)).
    + split; intros; discriminate.
    + simpl. rewrite <- IH.
      destruct (JS.search pat s) as [[? ?]|]; split; intros; try discriminate; reflexivity.
Qed.

Lemma includes_false_occurrences (s pat : string) :
  JS.includes s pat = false <-> JS.occurrences pat s = 0%nat.
Proof.
  rewrite <- search_None_occurrences. unfold JS.includes.
  destruct (JS.search pat s); split; intros; try discriminate; reflexivity.
Qed.

Lemma search_unfold (pat s : string) :
  JS.search pat s =
  if JS.startsWith pat s then Some ("", JS.skip (String.length pat) s)
  else match s with
       | EmptyString => None
       | String c s' =>
           match JS.search pat s' with
           | Some (pre, post) => Some (String c pre, post)
           | None => None
           end
       end.
Proof. destruct s; reflexivity. Qed.

(** A text includes each of the pieces it is put together from. *)
Lemma includes_app (a x b : string) : JS.includes (a ++ x ++ b) x = true.
Proof.
  unfold JS.includes.
  induction a as [|c a IH].
  - change ("" ++ x ++ b) with (x ++ b).
    rewrite search_unfold, startsWith_app. reflexivity.
  - change (String c a ++ x ++ b) with (String c (a ++ x ++ b)).
    rewrite search_unfold.
    destruct (JS.startsWith x (String c (a ++ x ++ b))); [reflexivity |].
    destruct (JS.search x (a ++ x ++ b)) as [[? ?]|]; [reflexivity | discriminate].
Qed.

Lemma split_not_nil (sep : ascii) (s : string) : JS.split sep s <> [].
Proof.
  destruct s as [|c s]; simpl; [discriminate |].
  destruct (Ascii.eqb c sep); [discriminate |].
  destruct (JS.split sep s); discriminate.
Qed.

(** A text without the separator is a single piece. *)
Lemma split_free (sep : ascii) (s : string) :
  JS.mentions sep s = false -> JS.split sep s = [s].
Proof.
  induction s as [|c s IH]; simpl; [reflexivity |].
  intros [Hc Hs]%orb_false_iff. rewrite Hc, (IH Hs). reflexivity.
Qed.

(** The pieces of a split do not contain the separator. *)
Lemma split_pieces_free (sep : ascii) (s : string) :
  Forall (fun x => JS.mentions sep x = false) (JS.split sep s).
Proof.
  induction s as [|c s IH]; simpl.
  - repeat constructor.
  - destruct (Ascii.eqb c sep) eqn:E.
    + constructor; [reflexivity | exact IH].
    + destruct (JS.split sep s) as [|h t]; inversion IH; subst;
        repeat constructor; simpl; rewrite ?E; auto.
Qed.

Lemma split_app_sep (sep : ascii) (x s : string) :
  JS.split sep (x ++ String sep s) = (JS.split sep x ++ JS.split sep s)%list.
Proof.
  induction x as [|c x IH]; simpl.
  - now rewrite Ascii.eqb_refl.
  - destruct (Ascii.eqb c sep).
    + now rewrite IH.
    + rewrite IH. pose proof (split_not_nil sep x) as Hne.
      destruct (JS.split sep x); [contradiction | reflexivity].
Qed.

(** Splitting a joined array splits each of its elements. *)
Lemma split_join (sep : ascii) (l : list string) :
  l <> [] ->
  JS.split sep (JS.join (String sep "") l) = concat (map (JS.split sep) l).
Proof.
  induction l as [|x l IH]; [contradiction |]. intros _.
  destruct l as [|y l].
  - simpl. now rewrite app_nil_r.
  - change (JS.join (String sep "") (x :: y :: l))
      with (x ++ String sep (JS.join (String sep "") (y :: l))).
    rewrite split_app_sep, IH by discriminate. reflexivity.
Qed.

Lemma concat_split_pieces (sep : ascii) (l : list string) :
  Forall (fun x => JS.mentions sep x = false) l ->
  concat (map (JS.split sep) l) = l.
Proof.
  induction 1 as [|x l Hx _ IH]; simpl; [reflexivity |].
  now rewrite (split_free _ _ Hx), IH.
Qed.

(** The lines of a text into which an item was spliced. *)
Lemma split_join_splice (sep : ascii) (content item : string) (k : nat) :
  let lines := JS.split sep content in
  JS.split sep (JS.join (String sep "") (take k lines ++ item :: drop k lines))
  = (take k lines ++ JS.split sep item ++ drop k lines)%list.
Proof.
  intros lines.
  rewrite split_join by (destruct (take k lines); discriminate).
  pose proof (split_pieces_free sep content) as Hfree. fold lines in Hfree.
  rewrite map_app, concat_app. simpl.
  rewrite !concat_split_pieces; [reflexivity | |].
  - rewrite <- (take_drop k lines) in Hfree.
    now apply Forall_app in Hfree as [_ ?].
  - rewrite <- (take_drop k lines) in Hfree.
    now apply Forall_app in Hfree as [? _].
Qed.

Lemma relativeIndex_in_range (len : nat) (i : Z) :
  0 <= i <= Z.of_nat len -> JS.relativeIndex len i = Z.to_nat i.
Proof.
  intros H. unfold JS.relativeIndex.
  destruct (Z.ltb_spec i 0); [lia |]. f_equal. lia.
Qed.

Lemma relativeIndex_le (len : nat) (i : Z) : (JS.relativeIndex len i <= len)%nat.
Proof. unfold JS.relativeIndex. destruct (Z.ltb_spec i 0); lia. Qed.

End JSFacts.

(** ** Facts about the file system *)

Section FsFacts.

Implicit Types (fs : gmap (list string) Node) (p q base rest : list string).

Lemma extend_ne base rest k :
  (1 <= k <= length rest)%nat -> base <> (base ++ take k rest)%list.
Proof.
  intros Hk E. apply (f_equal length) in E.
  rewrite length_app, length_take in E. lia.
Qed.

Lemma extend_step base c rest k :
  ((base ++ [c]) ++ take k rest = base ++ take (S k) (c :: rest))%list.
Proof. now rewrite <- app_assoc. Qed.

(** When no regular file is in the way, the walk makes every directory
    on the way and leaves all other paths as they were. *)
Lemma mkdirp_ok base rest fs :
  (forall k, (1 <= k <= length rest)%nat ->
             forall c, fs !! (base ++ take k rest)%list <> Some (File c)) ->
  exists fs',
    Fs.mkdirp base rest fs = (None, fs') /\
    (forall k, (1 <= k <= length rest)%nat -> fs' !! (base ++ take k rest)%list = Some Dir) /\
    (forall q, (forall k, (1 <= k <= length rest)%nat -> q <> (base ++ take k rest)%list) ->
               fs' !! q = fs !! q).
Proof.
  revert base fs; induction rest as [|c rest IH]; intros base fs Hfree.
  - exists fs. simpl. split; [reflexivity |]. split; [intros k Hk; lia | reflexivity].
  - simpl Fs.mkdirp.
    assert (Hd : forall c0, fs !! (base ++ [c])%list <> Some (File c0)).
    { intros c0. apply (Hfree 1%nat). simpl. lia. }
    assert (Hstep : forall fs0,
               fs0 !! (base ++ [c])%list = Some Dir ->
               (forall q, q <> (base ++ [c])%list -> fs0 !! q = fs !! q) ->
               exists fs',
                 Fs.mkdirp (base ++ [c]) rest fs0 = (None, fs') /\
                 (forall k, (1 <= k <= length (c :: rest))%nat ->
                            fs' !! (base ++ take k (c :: rest))%list = Some Dir) /\
                 (forall q, (forall k, (1 <= k <= length (c :: rest))%nat ->
                                       q <> (base ++ take k (c :: rest))%list) ->
                            fs' !! q = fs !! q)).
    { intros fs0 Hdir Hsame.
      destruct (IH (base ++ [c])%list fs0) as (fs' & Hrun & Hdirs & Hrest).
      { intros k Hk c0. rewrite extend_step, Hsame.
        - apply Hfree. simpl. lia.
        - rewrite <- extend_step. intros E. symmetry in E.
          now apply extend_ne in E. }
      exists fs'. split; [exact Hrun |]. split.
      - intros [|[|k]] Hk; simpl in Hk; [lia | |].
        + simpl. rewrite Hrest; [exact Hdir |].
          intros k Hk'. now apply extend_ne.
        + rewrite <- extend_step. apply Hdirs. lia.
      - intros q Hq. rewrite Hrest.
        + apply Hsame. apply (Hq 1%nat). simpl. lia.
        + intros k Hk. rewrite extend_step. apply Hq. simpl. lia. }
    destruct (fs !! (base ++ [c])%list) as [[c0|]|] eqn:E.
    + now destruct (Hd c0).
    + apply Hstep; [exact E | reflexivity].
    + apply Hstep.
      * apply lookup_insert_eq.
      * intros q Hq. now apply lookup_insert_ne.
Qed.

(** A regular file in the way stops the walk with a fault. *)
Lemma mkdirp_blocked base rest fs :
  (exists k c, (1 <= k <= length rest)%nat /\
               fs !! (base ++ take k rest)%list = Some (File c)) ->
  exists e fs', Fs.mkdirp base rest fs = (Some e, fs').
Proof.
  revert base fs; induction rest as [|c rest IH]; intros base fs (k & c0 & Hk & Hfile).
  - simpl in Hk. lia.
  - simpl Fs.mkdirp.
    assert (Hnext : forall fs0,
               (forall q, q <> (base ++ [c])%list -> fs0 !! q = fs !! q) ->
               fs !! (base ++ [c])%list <> Some (File c0) ->
               exists e fs', Fs.mkdirp (base ++ [c]) rest fs0 = (Some e, fs')).
    { intros fs0 Hsame Hne. apply IH.
      destruct k as [|[|k]]; [lia | now destruct Hne |].
      exists (S k), c0. simpl in Hk. split; [lia |].
      rewrite extend_step, Hsame; [exact Hfile |].
      rewrite <- extend_step. intros E. symmetry in E.
      apply extend_ne in E; [exact E | lia]. }
    destruct (fs !! (base ++ [c])%list) as [[c1|]|] eqn:E.
    + eauto.
    + apply Hnext; [reflexivity | discriminate].
    + apply Hnext; [intros q Hq; now apply lookup_insert_ne | discriminate].
Qed.

Lemma dirname_take p : Path.dirname p = take (length p - 1) p.
Proof.
  unfold Path.dirname. rewrite removelast_firstn_len.
  now replace (Nat.pred (length p)) with (length p - 1)%nat by lia.
Qed.

Lemma take_dirname p k :
  (k <= length p - 1)%nat -> take k (Path.dirname p) = take k p.
Proof. intros Hk. rewrite dirname_take, take_take. f_equal. lia. Qed.

Lemma length_dirname p : length (Path.dirname p) = (length p - 1)%nat.
Proof. rewrite dirname_take, length_take. lia. Qed.

(** [writable], spelled out. *)
Lemma writable_spec fs p :
  Fs.writable fs p = true <->
  Fs.is_dir fs p = false /\
  forall k, (1 <= k <= length p - 1)%nat -> Fs.is_file fs (take k p) = false.
Proof.
  unfold Fs.writable, Fs.ancestors.
  rewrite andb_true_iff, negb_true_iff, forallb_forall.
  split; intros [Hd Ha]; (split; [exact Hd |]).
  - intros k Hk. apply negb_true_iff, Ha, in_map_iff.
    exists k. split; [reflexivity |]. apply in_seq. lia.
  - intros d (k & <- & Hk%in_seq)%in_map_iff. apply negb_true_iff, Ha. lia.
Qed.

Lemma forallb_false_ex {A} (f : A -> bool) (l : list A) :
  forallb f l = false -> exists x, In x l /\ f x = false.
Proof.
  induction l as [|a l IH]; simpl; [discriminate |].
  destruct (f a) eqn:E; simpl.
  - intros (x & Hx & Hf)%IH. eauto.
  - eauto.
Qed.

Lemma node_at_nonroot fs p : p <> [] -> Fs.node_at fs p = fs !! p.
Proof. now destruct p. Qed.

End FsFacts.

(** ** The file-editing tool *)

Section EditorFacts.

Import getTextEditorTool.

(** [view] of a path at which nothing exists reports that the file was
    not found and changes nothing. *)
Lemma view_missing (w : World) (p : string) :
  Fs.existsSync (Path.resolve (cwd w) p) w = false ->
  execute (view p) w = (inr ("Error: File " ++ p ++ " not found"), w).
Proof. intros H. unfold execute, view. simpl. now rewrite H. Qed.

(** [view] of a regular file returns its whole content. *)
Lemma view_file (w : World) (p content : string) :
  Fs.node_at (files w) (Path.resolve (cwd w) p) = Some (File content) ->
  execute (view p) w = (inr content, w).
Proof.
  intros H. unfold execute, view, Fs.existsSync, bind, Fs.readFileSync. simpl.
  now rewrite H.
Qed.

(** [view] of a directory throws. *)
Lemma view_directory (w : World) (p : string) :
  Fs.is_dir (files w) (Path.resolve (cwd w) p) = true ->
  execute (view p) w = (inl EISDIR, w).
Proof.
  unfold Fs.is_dir. intros H.
  unfold execute, view, Fs.existsSync, bind, Fs.readFileSync. simpl.
  destruct (Fs.node_at (files w) (Path.resolve (cwd w) p)) as [[c|]|]; try discriminate.
  reflexivity.
Qed.

(** The walk to the parent of a path no ancestor of which is a regular
    file. *)
Lemma mkdirp_parent (fs : gmap (list string) Node) (fullPath : list string) :
  fullPath <> [] ->
  (forall k, (1 <= k <= length fullPath - 1)%nat -> Fs.is_file fs (take k fullPath) = false) ->
  exists fs1,
    Fs.mkdirp [] (Path.dirname fullPath) fs = (None, fs1) /\
    fs1 !! fullPath = fs !! fullPath /\
    Fs.node_at fs1 (Path.dirname fullPath) = Some Dir.
Proof.
  intros Hne Hanc.
  destruct (mkdirp_ok [] (Path.dirname fullPath) fs) as (fs1 & Hrun & Hdirs & Hsame).
  { intros k Hk c. rewrite length_dirname in Hk. simpl.
    rewrite take_dirname by lia. specialize (Hanc k Hk).
    unfold Fs.is_file in Hanc. intros E.
    rewrite node_at_nonroot, E in Hanc; [discriminate |].
    intros E'. apply (f_equal length) in E'. rewrite length_take in E'. simpl in E'. lia. }
  exists fs1. split; [exact Hrun |]. split.
  - apply Hsame. intros k Hk E. apply (f_equal length) in E.
    rewrite length_dirname in Hk. simpl in E.
    rewrite length_take, length_dirname in E. lia.
  - destruct (decide (Path.dirname fullPath = [])) as [E|E]; [now rewrite E |].
    rewrite node_at_nonroot by exact E.
    specialize (Hdirs (length (Path.dirname fullPath))).
    rewrite take_ge in Hdirs by lia. apply Hdirs.
    destruct (Path.dirname fullPath); [contradiction | simpl; lia].
Qed.

(** [create] at a writable path makes the missing parent directories,
    writes the file and touches nothing else of the process. *)
Lemma create_writable (w : World) (p t : string) :
  let fullPath := Path.resolve (cwd w) p in
  Fs.writable (files w) fullPath = true ->
  exists w',
    execute (create p t) w = (inr ("File created: " ++ p), w') /\
    cwd w' = cwd w /\ executed w' = executed w /\ written w' = written w /\
    Fs.node_at (files w') fullPath = Some (File t) /\
    Fs.is_dir (files w') (Path.dirname fullPath) = true.
Proof.
  intros fullPath [Hnodir Hanc]%writable_spec.
  assert (Hne : fullPath <> []).
  { intros E. rewrite E in Hnodir. discriminate. }
  destruct (mkdirp_parent (files w) fullPath Hne Hanc) as (fs1 & Hrun & Hp & Hparent).
  exists (with_files (<[fullPath := File t]> fs1) w).
  split; [| repeat split].
  - unfold execute, create, bind, Fs.mkdirSync_recursive, Fs.writeFileSync, ret. simpl.
    fold fullPath. rewrite Hrun. simpl.
    rewrite (node_at_nonroot fs1 fullPath Hne), Hp, Hparent.
    unfold Fs.is_dir in Hnodir. rewrite node_at_nonroot in Hnodir by exact Hne.
    destruct (files w !! fullPath) as [[c|]|]; try discriminate; reflexivity.
  - simpl. rewrite node_at_nonroot by exact Hne. apply lookup_insert_eq.
  - unfold Fs.is_dir. simpl.
    destruct (decide (Path.dirname fullPath = [])) as [E|E]; [now rewrite E |].
    rewrite node_at_nonroot by exact E.
    rewrite lookup_insert_ne.
    + rewrite <- node_at_nonroot by exact E. now rewrite Hparent.
    + intros E'. apply (f_equal length) in E'.
      rewrite length_dirname in E'. destruct fullPath; simpl in *; [congruence | lia].
Qed.

(** At any other path [create] throws. *)
Lemma create_not_writable (w : World) (p t : string) :
  Fs.writable (files w) (Path.resolve (cwd w) p) = false ->
  exists e w', execute (create p t) w = (inl e, w').
Proof.
  set (fullPath := Path.resolve (cwd w) p). intros Hnw.
  unfold execute, create, bind, Fs.mkdirSync_recursive, Fs.writeFileSync, ret. simpl.
  fold fullPath.
  destruct (forallb (fun d => negb (Fs.is_file (files w) d)) (Fs.ancestors fullPath)) eqn:Hanc.
  - (* no file is in the way: the path itself is a directory *)
    assert (Hdir : Fs.is_dir (files w) fullPath = true).
    { unfold Fs.writable in Hnw. rewrite Hanc, andb_true_r in Hnw.
      now apply negb_false_iff in Hnw. }
    destruct (decide (fullPath = [])) as [E|Hne].
    + rewrite E. simpl. eauto.
    + assert (Hfree : forall k, (1 <= k <= length fullPath - 1)%nat ->
                                Fs.is_file (files w) (take k fullPath) = false).
      { intros k Hk. rewrite forallb_forall in Hanc.
        apply negb_true_iff, Hanc, in_map_iff.
        exists k. split; [reflexivity |]. apply in_seq. lia. }
      destruct (mkdirp_parent (files w) fullPath Hne Hfree) as (fs1 & Hrun & Hp & _).
      rewrite Hrun. simpl. rewrite node_at_nonroot, Hp by exact Hne.
      unfold Fs.is_dir in Hdir. rewrite node_at_nonroot in Hdir by exact Hne.
      destruct (files w !! fullPath) as [[c|]|]; try discriminate. eauto.
  - (* a regular file is in the way of the parent directories *)
    apply forallb_false_ex in Hanc as (d & (k & <- & Hk%in_seq)%in_map_iff & Hd).
    apply negb_false_iff in Hd. unfold Fs.is_file in Hd.
    destruct (Fs.node_at (files w) (take k fullPath)) as [[c|]|] eqn:E; try discriminate.
    destruct (mkdirp_blocked [] (Path.dirname fullPath) (files w)) as (e & fs' & Hrun).
    { exists k, c. rewrite length_dirname. split; [lia |]. simpl.
      rewrite take_dirname by lia. rewrite <- E. symmetry. apply node_at_nonroot.
      intros E'. apply (f_equal length) in E'. rewrite length_take in E'.
      simpl in E'. lia. }
    rewrite Hrun. eauto.
Qed.

(** A replacement template without a dollar sign stands for itself. *)
Lemma GetSubstitution_literal (matched pre post template : string) :
  JS.mentions JS.dollar template = false ->
  JS.GetSubstitution matched pre post template = template.
Proof.
  induction template as [|c r IH]; simpl; [reflexivity |].
  intros [Hc Hr]%orb_false_iff. rewrite Hc. now rewrite IH.
Qed.

(** [str_replace] with a template free of dollar signs: the first
    occurrence of [old] gives way to [new], and the length changes by
    the difference of their lengths. *)
Lemma str_replace_literal (w : World) (p old new current pre post : string) :
  let fullPath := Path.resolve (cwd w) p in
  Fs.node_at (files w) fullPath = Some (File current) ->
  JS.search old current = Some (pre, post) ->
  JS.mentions JS.dollar new = false ->
  current = pre ++ old ++ post /\
  execute (str_replace p old new) w
  = (inr ("File updated: " ++ p),
     with_files (<[fullPath := File (pre ++ new ++ post)]> (files w)) w) /\
  (String.length (pre ++ new ++ post) + String.length old
   = String.length current + String.length new)%nat.
Proof.
  intros fullPath Hfile Hfound Hlit.
  pose proof (search_sound _ _ _ _ Hfound) as Hcur.
  split; [exact Hcur |]. split.
  - unfold execute, str_replace, bind, Fs.existsSync, Fs.readFileSync,
      Fs.writeFileSync, ret, JS.includes, JS.replace. simpl.
    fold fullPath. rewrite Hfile, Hfound. simpl. rewrite Hfile.
    now rewrite GetSubstitution_literal.
  - rewrite Hcur, !string_length_app. lia.
Qed.

(** [str_replace] on a content without an occurrence of [old] reports
    so and leaves the world as it is. *)
Lemma str_replace_absent (w : World) (p old new current : string) :
  Fs.node_at (files w) (Path.resolve (cwd w) p) = Some (File current) ->
  JS.occurrences old current = 0%nat ->
  execute (str_replace p old new) w = (inr ("Error: old_str not found in " ++ p), w).
Proof.
  intros Hfile Hnone%includes_false_occurrences.
  unfold execute, str_replace, bind, Fs.existsSync, Fs.readFileSync, ret. simpl.
  rewrite Hfile. simpl. now rewrite Hnone.
Qed.

(** [view] with a range returns the requested lines. *)
Lemma view_range_file (w : World) (p content : string) (range : list Z) :
  Fs.node_at (files w) (Path.resolve (cwd w) p) = Some (File content) ->
  execute (view_lines p range) w
  = (inr (JS.join JS.NL
            (JS.slice (JS.split JS.LF content)
                      (match range !! 0%nat with Some a => a - 1 | None => 0 end)
                      (range !! 1%nat))), w).
Proof.
  intros H. unfold execute, view_lines, Fs.existsSync, bind, Fs.readFileSync. simpl.
  now rewrite H.
Qed.

(** [insert] into a regular file splices the text into its lines. *)
Lemma insert_file (w : World) (p text content : string) (i : Z) :
  let fullPath := Path.resolve (cwd w) p in
  Fs.node_at (files w) fullPath = Some (File content) ->
  execute (insert p i text) w
  = (inr ("Text inserted at line " ++ pretty i ++ " in " ++ p),
     with_files (<[fullPath :=
                     File (JS.join JS.NL (JS.splice_insert (JS.split JS.LF content) i text))]>
                   (files w)) w).
Proof.
  intros fullPath H.
  unfold execute, insert, Fs.existsSync, bind, Fs.readFileSync, Fs.writeFileSync, ret.
  simpl. fold fullPath. rewrite H. simpl. now rewrite H.
Qed.

End EditorFacts.

(** ** Claims about the file-editing tool *)

Section EditorClaims.

Import getTextEditorTool.

(** C1, as amended. For every path at which nothing exists, [view]
    reports that the file was not found. For every path that resolves
    to no directory and has no regular file among its ancestors, and
    every text, [create] succeeds, having made the missing parent
    directories and overwritten what was there, and a following [view]
    returns exactly that text. *)
Theorem view_missing_and_create_then_view (w : World) (p t : string) :
  let fullPath := Path.resolve (cwd w) p in
  (Fs.existsSync fullPath w = false ->
   execute (view p) w = (inr ("Error: File " ++ p ++ " not found"), w)) /\
  (Fs.writable (files w) fullPath = true ->
   exists w',
     execute (create p t) w = (inr ("File created: " ++ p), w') /\
     Fs.is_dir (files w') (Path.dirname fullPath) = true /\
     execute (view p) w' = (inr t, w')).
Proof.
  intros fullPath. split.
  - apply view_missing.
  - intros Hw.
    destruct (create_writable w p t Hw) as (w' & Hrun & Hcwd & _ & _ & Hfile & Hdir).
    exists w'. split; [exact Hrun |]. split; [exact Hdir |].
    apply view_file. rewrite Hcwd. exact Hfile.
Qed.

Lemma view_missing_and_create_then_view_witness :
  execute (view "out/a.txt") Samples.w0
  = (inr "Error: File out/a.txt not found", Samples.w0) /\
  exists w',
    execute (create "out/a.txt" "hello") Samples.w0 = (inr "File created: out/a.txt", w') /\
    Fs.is_dir (files w') ["srv"; "app"; "out"] = true /\
    execute (view "out/a.txt") w' = (inr "hello", w').
Proof.
  destruct (view_missing_and_create_then_view Samples.w0 "out/a.txt" "hello") as [Hv Hc].
  split; [apply Hv; vm_compute; reflexivity | apply Hc; vm_compute; reflexivity].
Defined.

(** C1, as stated, fails: [create] does not succeed for every path.
    Once the tool has created [out/a.txt], [create] of [out] throws,
    since [out] is a directory. *)
Lemma create_on_directory_throws :
  ~ (forall (w : World) (p t : string),
       exists msg w',
         execute (create p t) w = (inr msg, w') /\
         execute (view p) w' = (inr t, w')).
Proof.
  intros H. destruct (H Samples.w_out "out" "x") as (msg & w' & Hrun & _).
  assert (E : (execute (create "out" "x") Samples.w_out).1 = inl EISDIR)
    by (vm_compute; reflexivity).
  rewrite Hrun in E. discriminate.
Qed.

(** C3, on the code. The content holds exactly one occurrence of
    [PLACEHOLDER]; [str_replace] of it by the text [$$x^2$$] succeeds and
    leaves [$x^2$] in the file, two characters short of the text that
    was asked for: the dollar patterns of [String.prototype.replace]
    were expanded. *)
Theorem str_replace_expands_dollar_patterns :
  let content := "formula = PLACEHOLDER" in
  let old := "PLACEHOLDER" in
  let new := "$$x^2$$" in
  execute (view "scene.py") Samples.w_scene = (inr content, Samples.w_scene) /\
  JS.occurrences old content = 1%nat /\
  exists w',
    execute (str_replace "scene.py" old new) Samples.w_scene
    = (inr "File updated: scene.py", w') /\
    execute (view "scene.py") w' = (inr "formula = $x^2$", w') /\
    (String.length "formula = $x^2$" + String.length old + 2
     = String.length content + String.length new)%nat.
Proof.
  cbv zeta. split; [vm_compute; reflexivity |]. split; [vm_compute; reflexivity |].
  exists (execute (str_replace "scene.py" "PLACEHOLDER" "$$x^2$$") Samples.w_scene).2.
  repeat split; vm_compute; reflexivity.
Qed.

(** C6. For every existing file, index and text, [insert] raises the
    number of lines of the file by the number of lines of the text, and
    for an index within the file (or just past its last line) the lines
    of the text stand from that index on, before the line that was
    there. *)
Theorem insert_line_count_and_position (w : World) (p text content : string) (i : Z) :
  let fullPath := Path.resolve (cwd w) p in
  let lines := JS.split JS.LF content in
  Fs.node_at (files w) fullPath = Some (File content) ->
  exists w' content',
    execute (insert p i text) w
    = (inr ("Text inserted at line " ++ pretty i ++ " in " ++ p), w') /\
    Fs.node_at (files w') fullPath = Some (File content') /\
    length (JS.split JS.LF content')
    = (length lines + length (JS.split JS.LF text))%nat /\
    (0 <= i <= Z.of_nat (length lines) ->
     JS.split JS.LF content'
     = (take (Z.to_nat i) lines ++ JS.split JS.LF text ++ drop (Z.to_nat i) lines)%list).
Proof.
  intros fullPath lines Hfile.
  assert (Hne : fullPath <> []).
  { intros E. rewrite E in Hfile. discriminate. }
  eexists _, _. split; [apply insert_file; exact Hfile |].
  split; [simpl; rewrite node_at_nonroot by exact Hne; apply lookup_insert_eq |].
  unfold JS.splice_insert. fold lines.
  pose proof (split_join_splice JS.LF content text
                (JS.relativeIndex (length lines) i)) as Hsplit.
  cbv zeta in Hsplit. fold lines in Hsplit. fold JS.NL in Hsplit.
  rewrite Hsplit. split.
  - rewrite !length_app, length_take, length_drop.
    pose proof (relativeIndex_le (length lines) i). lia.
  - intros Hi. now rewrite relativeIndex_in_range.
Qed.

Lemma insert_line_count_and_position_witness :
  exists w' content',
    execute (insert "notes.txt" 1 "NEW") Samples.w_lines
    = (inr "Text inserted at line 1 in notes.txt", w') /\
    Fs.node_at (files w') ["srv"; "app"; "notes.txt"] = Some (File content') /\
    length (JS.split JS.LF content') = 4%nat /\
    JS.split JS.LF content' = ["one"; "NEW"; "two"; "three"].
Proof.
  destruct (insert_line_count_and_position Samples.w_lines "notes.txt" "NEW"
              ("one" ++ JS.NL ++ "two" ++ JS.NL ++ "three") 1)
    as (w' & content' & Hrun & Hfile & Hcount & Hpos);
    [vm_compute; reflexivity |].
  exists w', content'. split; [exact Hrun |]. split; [exact Hfile |].
  split; [exact Hcount |]. apply Hpos. vm_compute. split; discriminate.
Defined.

(** C9, as amended. For every file, [view] returns the whole content,
    whatever its length, and with a range exactly the requested lines;
    neither call fails. The configured maximum of 50,000 characters is
    handed to the tool definition and bounds nothing that [execute]
    returns. *)
Theorem view_returns_whole_content (w : World) (p content : string) (range : list Z) :
  Fs.node_at (files w) (Path.resolve (cwd w) p) = Some (File content) ->
  execute (view p) w = (inr content, w) /\
  execute (view_lines p range) w
  = (inr (JS.join JS.NL
            (JS.slice (JS.split JS.LF content)
                      (match range !! 0%nat with Some a => a - 1 | None => 0 end)
                      (range !! 1%nat))), w).
Proof.
  intros H. split; [now apply view_file | now apply view_range_file].
Qed.

Lemma view_returns_whole_content_witness :
  execute (view "notes.txt") Samples.w_lines
  = (inr ("one" ++ JS.NL ++ "two" ++ JS.NL ++ "three"), Samples.w_lines) /\
  execute (view_lines "notes.txt" [2; 3]) Samples.w_lines
  = (inr ("two" ++ JS.NL ++ "three"), Samples.w_lines).
Proof.
  apply (view_returns_whole_content Samples.w_lines "notes.txt"
           ("one" ++ JS.NL ++ "two" ++ JS.NL ++ "three") [2; 3]).
  vm_compute. reflexivity.
Defined.

Lemma letters_length (n : nat) : String.length (Samples.letters n) = n.
Proof. induction n as [|n IH]; simpl; [reflexivity | now rewrite IH]. Qed.

Lemma view_holding (content : string) :
  execute (view "big.txt") (Samples.holding content)
  = (inr content, Samples.holding content).
Proof.
  apply view_file.
  change (Path.resolve (cwd (Samples.holding content)) "big.txt")
    with (Path.resolve ["srv"; "app"] "big.txt").
  replace (Path.resolve ["srv"; "app"] "big.txt") with ["srv"; "app"; "big.txt"]
    by (vm_compute; reflexivity).
  apply lookup_singleton_eq.
Qed.

(** C9, as stated, fails: the text that [view] returns for a file of
    50,001 characters is 50,001 characters long. *)
Lemma view_exceeds_maxCharacters :
  ~ (forall (w w' : World) (p out : string),
       execute (view p) w = (inr out, w') ->
       Z.of_nat (String.length out) <= maxCharacters).
Proof.
  intros H.
  specialize (H Samples.w_big Samples.w_big "big.txt" Samples.big
                (view_holding Samples.big)).
  unfold Samples.big in H. rewrite letters_length, Z2Nat.id in H.
  - lia.
  - unfold maxCharacters. lia.
Qed.

End EditorClaims.

(** ** Claims about the command-execution tool *)

Section BashClaims.

Import getBashTool child_process.

Variable sh : Shell.

(** [execSync] returns exactly when the child did not fail, and throws
    an error carrying what was captured when it did. *)
Lemma execSync_outcome (cmd : string) (w : World) (child : ChildResult)
      (fs' : gmap (list string) Node) :
  sh options cmd (files w) = (child, fs') ->
  let w' := {| cwd := cwd w; files := fs';
               executed := (executed w ++ [cmd])%list; written := written w |} in
  if failed child
  then exists message,
      execSync sh cmd options w
      = (inl (ExecError message (captured_stderr child) (captured_stdout child)), w')
  else exists out err,
      child = Exited 0 out err /\ execSync sh cmd options w = (inr out, w').
Proof.
  intros Hsh w'. unfold execSync. rewrite Hsh. fold w'.
  destruct child as [status out err|out err|out err|msg]; simpl; eauto.
  destruct (Z.eqb_spec status 0) as [->|]; simpl; eauto.
Qed.

Lemma orElse_nonempty (o : option string) (fallback : string) :
  fallback <> "" -> orElse o fallback <> "".
Proof.
  intros Hf. unfold orElse. destruct o as [s|]; [|exact Hf].
  destruct (String.eqb_spec s ""); congruence.
Qed.

Lemma orElse_Some_nonempty (s fallback : string) :
  s <> "" -> orElse (Some s) fallback = s.
Proof. intros Hs. unfold orElse. now destruct (String.eqb_spec s ""). Qed.

Lemma orElse_empty (o : option string) : orElse o "" = default "" o.
Proof.
  unfold orElse. destruct o as [s|]; [|reflexivity].
  now destruct (String.eqb_spec s "") as [->|].
Qed.

(** Whatever the input, [execute] returns a text. *)
Lemma execute_returns (i : Input) (w : World) :
  exists out w', execute sh i w = (inr out, w').
Proof.
  unfold execute, ret.
  destruct (restart i) as [[|]|]; eauto;
    destruct (execSync sh (command i) options w) as [[e|out] w']; eauto.
Qed.

(** Unless a restart is asked for, [execute] is [execSync] with its
    outcome turned into a text. *)
Lemma execute_runs (i : Input) (w : World) :
  restart i <> Some true ->
  execute sh i w
  = match execSync sh (command i) options w with
    | (inr result, w') =>
        (inr (orElse (Some result) "Command executed successfully (no output)"), w')
    | (inl error, w') =>
        (inr ("Error: " ++ Exn_message error ++ JS.NL
              ++ "Stderr: " ++ orElse (Exn_stderr error) "" ++ JS.NL
              ++ "Stdout: " ++ orElse (Exn_stdout error) ""), w')
    end.
Proof.
  intros Hr. unfold execute, ret.
  destruct (restart i) as [[|]|]; [congruence | |];
    destruct (execSync sh (command i) options w) as [[e|out] w']; reflexivity.
Qed.

End BashClaims.

(** C4, as amended. The command-execution tool never raises: whatever the
    input, [execute] returns a text. Every failure of the command
    (non-zero exit, timeout, output overflow, spawn failure) is returned
    as the text [Error: <message>], [Stderr: <stderr>], [Stdout: <stdout>]
    on three lines, which includes the message of the failure and what
    was captured of the two streams. That text is an ordinary return
    value: the result handed to the engine does not have [isError] set. *)
Theorem bash_failure_returned_as_text
        (sh : child_process.Shell) (i : getBashTool.Input) (w : World) (id : string) :
  (exists out w',
      getBashTool.execute sh i w = (inr out, w') /\
      ai.isError (ai.toToolResult id (getBashTool.execute sh i w).1) = false) /\
  (getBashTool.restart i <> Some true ->
   forall child fs',
     sh getBashTool.options (getBashTool.command i) (files w) = (child, fs') ->
     child_process.failed child = true ->
     exists e w',
       child_process.execSync sh (getBashTool.command i) getBashTool.options w = (inl e, w') /\
       Exn_stderr e = child_process.captured_stderr child /\
       Exn_stdout e = child_process.captured_stdout child /\
       let out := "Error: " ++ Exn_message e ++ JS.NL
                  ++ "Stderr: " ++ default "" (Exn_stderr e) ++ JS.NL
                  ++ "Stdout: " ++ default "" (Exn_stdout e) in
       getBashTool.execute sh i w = (inr out, w') /\
       JS.includes out (Exn_message e) = true /\
       JS.includes out (default "" (Exn_stderr e)) = true /\
       JS.includes out (default "" (Exn_stdout e)) = true).
Proof.
  split.
  - destruct (execute_returns sh i w) as (out & w' & E).
    exists out, w'. split; [exact E |]. now rewrite E.
  - intros Hr child fs' Hsh Hfail.
    pose proof (execSync_outcome sh _ w child fs' Hsh) as Hout.
    rewrite Hfail in Hout. destruct Hout as (message & Hexec).
    eexists _, _. split; [exact Hexec |]. simpl Exn_stderr. simpl Exn_stdout.
    simpl Exn_message. split; [reflexivity |]. split; [reflexivity |].
    split; [| split; [| split]].
    + rewrite (execute_runs sh i w Hr), Hexec. simpl Exn_stderr. simpl Exn_stdout.
      simpl Exn_message. now rewrite !orElse_empty.
    + apply includes_app.
    + match goal with |- JS.includes (?a ++ ?m ++ ?n ++ ?b ++ ?x ++ ?r) _ = true =>
        replace (a ++ m ++ n ++ b ++ x ++ r) with ((a ++ m ++ n ++ b) ++ x ++ r)
          by (now rewrite !string_app_assoc)
      end.
      apply includes_app.
    + match goal with |- JS.includes (?a ++ ?m ++ ?n ++ ?b ++ ?x ++ ?n' ++ ?c ++ ?y) _ = true =>
        replace (a ++ m ++ n ++ b ++ x ++ n' ++ c ++ y)
          with ((a ++ m ++ n ++ b ++ x ++ n' ++ c) ++ y ++ "")
          by (now rewrite !string_app_assoc, string_app_nil_r)
      end.
      apply includes_app.
Qed.

Lemma bash_failure_returned_as_text_witness :
  exists e w',
    child_process.execSync Samples.shell "python3 -c 'print(1/0)'" getBashTool.options Samples.w0
    = (inl e, w') /\
    getBashTool.execute Samples.shell (getBashTool.run "python3 -c 'print(1/0)'") Samples.w0
    = (inr ("Error: " ++ Exn_message e ++ JS.NL
            ++ "Stderr: " ++ default "" (Exn_stderr e) ++ JS.NL
            ++ "Stdout: " ++ default "" (Exn_stdout e)), w') /\
    Exn_stderr e = Some ("ZeroDivisionError: division by zero" ++ JS.NL).
Proof.
  destruct (bash_failure_returned_as_text Samples.shell
              (getBashTool.run "python3 -c 'print(1/0)'") Samples.w0 "call-1")
    as [_ H].
  destruct (H ltac:(discriminate)
              (child_process.Exited 1 "" ("ZeroDivisionError: division by zero" ++ JS.NL))
              (files Samples.w0) eq_refl eq_refl)
    as (e & w' & Hexec & Herr & _ & Hrun & _).
  exists e, w'. split; [exact Hexec |]. split; [exact Hrun | exact Herr].
Defined.

(** C4, as stated, fails: the command [false] exits with status 1, and the
    result of the call is not an error result. *)
Lemma bash_failure_not_flagged :
  ~ (forall (sh : child_process.Shell) (i : getBashTool.Input) (w : World) (id : string),
       getBashTool.restart i <> Some true ->
       child_process.failed (sh getBashTool.options (getBashTool.command i) (files w)).1 = true ->
       ai.isError (ai.toToolResult id (getBashTool.execute sh i w).1) = true).
Proof.
  intros H.
  specialize (H Samples.shell (getBashTool.run "false") Samples.w0 "call-1").
  assert (E : ai.isError (ai.toToolResult "call-1"
                (getBashTool.execute Samples.shell (getBashTool.run "false") Samples.w0).1)
              = false) by (vm_compute; reflexivity).
  rewrite H in E; [discriminate | discriminate | reflexivity].
Qed.

(** A failure and a success can return the very same text, so no flag
    computed from the returned text tells the one from the other. *)
Lemma failure_text_same_as_success :
  child_process.failed
    (Samples.shell getBashTool.options "false" (files Samples.w0)).1 = true /\
  child_process.failed
    (Samples.shell getBashTool.options "cat report.txt" (files Samples.w0)).1 = false /\
  (getBashTool.execute Samples.shell (getBashTool.run "false") Samples.w0).1
  = (getBashTool.execute Samples.shell (getBashTool.run "cat report.txt") Samples.w0).1.
Proof. repeat split; vm_compute; reflexivity. Qed.

(** C7, as amended. For every command that exits with status 0 within the
    timeout with a standard output that is not empty, the tool returns
    that output verbatim and untruncated, as an ordinary result
    ([isError] is false). *)
Theorem bash_success_returns_stdout
        (sh : child_process.Shell) (i : getBashTool.Input) (w : World) (id : string)
        (out err : string) (fs' : gmap (list string) Node) :
  getBashTool.restart i <> Some true ->
  sh getBashTool.options (getBashTool.command i) (files w)
  = (child_process.Exited 0 out err, fs') ->
  out <> "" ->
  exists w',
    getBashTool.execute sh i w = (inr out, w') /\
    files w' = fs' /\
    ai.toToolResult id (getBashTool.execute sh i w).1 = ai.mkToolResult id out false.
Proof.
  intros Hr Hsh Hne.
  pose proof (execSync_outcome sh _ w _ fs' Hsh) as Hout. simpl in Hout.
  destruct Hout as (out' & err' & [= <- <-] & Hexec).
  eexists. rewrite (execute_runs sh i w Hr), Hexec, orElse_Some_nonempty by exact Hne.
  repeat split.
Qed.

Lemma bash_success_returns_stdout_witness :
  exists w',
    getBashTool.execute Samples.shell (getBashTool.run "echo hi") Samples.w0
    = (inr ("hi" ++ JS.NL), w') /\
    files w' = files Samples.w0 /\
    ai.toToolResult "call-1"
      (getBashTool.execute Samples.shell (getBashTool.run "echo hi") Samples.w0).1
    = ai.mkToolResult "call-1" ("hi" ++ JS.NL) false.
Proof.
  apply (bash_success_returns_stdout Samples.shell (getBashTool.run "echo hi")
           Samples.w0 "call-1" ("hi" ++ JS.NL) "" (files Samples.w0));
    [discriminate | reflexivity | discriminate].
Defined.

(** C7, as stated, fails: [true] exits with status 0 and an empty standard
    output, and what the tool returns is not that output. *)
Lemma bash_empty_stdout_not_verbatim :
  ~ (forall (sh : child_process.Shell) (i : getBashTool.Input) (w : World)
            (out err : string) (fs' : gmap (list string) Node),
       getBashTool.restart i <> Some true ->
       sh getBashTool.options (getBashTool.command i) (files w)
       = (child_process.Exited 0 out err, fs') ->
       (getBashTool.execute sh i w).1 = inr out).
Proof.
  intros H.
  specialize (H Samples.shell (getBashTool.run "true") Samples.w0 "" "" (files Samples.w0)
                ltac:(discriminate) eq_refl).
  vm_compute in H. discriminate.
Qed.

(** C8. With [restart] set, the tool runs no command, leaves the files and
    the rest of the world as they are, and returns a confirmation. *)
Theorem bash_restart_runs_nothing
        (sh : child_process.Shell) (cmd : string) (w : World) :
  let outcome := getBashTool.execute sh (getBashTool.mkInput cmd (Some true)) w in
  outcome = (inr "Bash session restarted", w) /\
  executed outcome.2 = executed w /\
  files outcome.2 = files w /\
  written outcome.2 = written w.
Proof. repeat split. Qed.

(** Without [restart] the command is run: it is the one more entry in the
    record of the commands run, whatever became of it. *)
Lemma bash_run_records_command
      (sh : child_process.Shell) (i : getBashTool.Input) (w : World) :
  getBashTool.restart i <> Some true ->
  executed (getBashTool.execute sh i w).2 = (executed w ++ [getBashTool.command i])%list.
Proof.
  intros Hr. rewrite (execute_runs sh i w Hr). unfold child_process.execSync.
  destruct (sh getBashTool.options (getBashTool.command i) (files w)) as [child fs'].
  destruct child as [status out err|out err|out err|msg]; simpl;
    try reflexivity.
  destruct (status =? 0); reflexivity.
Qed.

(** C10. For every command that exits with status 0 with an empty standard
    output, the tool returns the fixed message
    [Command executed successfully (no output)]; and no text that the tool
    returns is the empty string. *)
Theorem bash_empty_stdout_message
        (sh : child_process.Shell) (i : getBashTool.Input) (w : World) :
  (getBashTool.restart i <> Some true ->
   forall err fs',
     sh getBashTool.options (getBashTool.command i) (files w)
     = (child_process.Exited 0 "" err, fs') ->
     exists w',
       getBashTool.execute sh i w
       = (inr "Command executed successfully (no output)", w') /\ files w' = fs') /\
  (forall out w', getBashTool.execute sh i w = (inr out, w') -> out <> "").
Proof.
  split.
  - intros Hr err fs' Hsh.
    pose proof (execSync_outcome sh _ w _ fs' Hsh) as Hout. simpl in Hout.
    destruct Hout as (out' & err' & [= <- <-] & Hexec).
    eexists. rewrite (execute_runs sh i w Hr), Hexec. split; reflexivity.
  - intros out w' Hrun.
    destruct (decide (getBashTool.restart i = Some true)) as [Hr|Hr].
    + unfold getBashTool.execute, ret in Hrun. rewrite Hr in Hrun.
      injection Hrun as <- <-. discriminate.
    + rewrite (execute_runs sh i w Hr) in Hrun.
      destruct (child_process.execSync sh _ _ w) as [[e|r] w1];
        injection Hrun as <- <-; [discriminate |].
      change (getBashTool.orElse (Some r) "Command executed successfully (no output)" <> "").
      apply orElse_nonempty. discriminate.
Qed.

Lemma bash_empty_stdout_message_witness :
  exists w',
    getBashTool.execute Samples.shell (getBashTool.run "true") Samples.w0
    = (inr "Command executed successfully (no output)", w') /\ files w' = files Samples.w0.
Proof.
  destruct (bash_empty_stdout_message Samples.shell (getBashTool.run "true") Samples.w0)
    as [H _].
  apply (H ltac:(discriminate) "" (files Samples.w0)). reflexivity.
Defined.

(** ** The agent loop *)

Section LoopFacts.

Import ai.

Lemma concatText_cons (x : string) (l : list string) :
  concatText (x :: l) = x ++ concatText l.
Proof.
  unfold concatText. destruct l as [|y l]; simpl; [now rewrite string_app_nil_r | reflexivity].
Qed.

Lemma concatText_app (a b : list string) :
  concatText (a ++ b) = concatText a ++ concatText b.
Proof.
  induction a as [|x a IH]; [reflexivity |].
  change ((x :: a) ++ b)%list with (x :: (a ++ b))%list.
  now rewrite !concatText_cons, IH, string_app_assoc.
Qed.

Lemma concatText_snoc (l : list string) (x : string) :
  concatText (l ++ [x]) = concatText l ++ x.
Proof. rewrite concatText_app. unfold concatText at 2. reflexivity. Qed.

Lemma sumUsage_snoc (l : list Usage) (u : Usage) :
  sumUsage (l ++ [u]) = addUsage (sumUsage l) u.
Proof. unfold sumUsage. now rewrite fold_left_app. Qed.

Lemma accumulated_initial (cfg : Settings) : accumulated (initialState cfg).
Proof. repeat split. Qed.

Lemma accumulated_step (st : LoopState) (txt : string) (calls : list ToolCall)
      (results : list ToolResult) (u : Usage) (msgs : list Message) :
  accumulated st ->
  accumulated {| stepIndex := S (stepIndex st);
                 transcript := msgs;
                 accumulatedText := accumulatedText st ++ txt;
                 usageTotals := addUsage (usageTotals st) u;
                 steps := steps st ++ [mkStep txt calls results u] |}.
Proof.
  intros (Hi & Ht & Hu). unfold accumulated. simpl.
  rewrite !map_app, length_app. simpl.
  rewrite concatText_snoc, sumUsage_snoc, Hi, Ht, Hu. repeat split. lia.
Qed.

(** The text and the usage that the blocking loop returns are those of
    all the steps it made. *)
Lemma loop_accumulates (fuel : nat) (cfg : Settings) :
  forall st w r w',
    accumulated st ->
    loop fuel cfg st w = (Some (inr r), w') ->
    text r = concatText (map stepText (resultSteps r)) /\
    usage r = sumUsage (map stepUsage (resultSteps r)).
Proof.
  induction fuel as [|fuel IH]; intros st w r w' Hacc; simpl; [discriminate |].
  destruct (stopWhen cfg (steps st)).
  - intros [= <- <-]. simpl. destruct Hacc as (_ & Ht & Hu). now split.
  - destruct (model cfg (transcript st)) as [e|turn]; [discriminate |].
    destruct (callTools (tools cfg) (toolCalls turn) w) as [results w1].
    match goal with |- context [finishWith ?st' Done] =>
      assert (Hacc' : accumulated st') by (apply accumulated_step; exact Hacc)
    end.
    destruct (toolCalls turn) as [|c calls].
    + intros [= <- <-]. simpl. destruct Hacc' as (_ & Ht & Hu). now split.
    + intros Hrun. eapply IH; [exact Hacc' | exact Hrun].
Qed.

Section StepLimit.

Variable cfg : Settings.
Variable n : nat.
Hypothesis Hstop : stopWhen cfg = stepCountIs n.

(** The loop never records more than [n] steps. *)
Lemma loop_steps_bound (fuel : nat) :
  forall st w r w',
    (length (steps st) <= n)%nat ->
    loop fuel cfg st w = (Some (inr r), w') ->
    (length (resultSteps r) <= n)%nat.
Proof.
  induction fuel as [|fuel IH]; intros st w r w' Hle; simpl; [discriminate |].
  rewrite Hstop. unfold stepCountIs.
  destruct (Nat.eqb_spec (length (steps st)) n) as [E|E].
  - intros [= <- <-]. simpl. lia.
  - destruct (model cfg (transcript st)) as [e|turn]; [discriminate |].
    destruct (callTools (tools cfg) (toolCalls turn) w) as [results w1].
    destruct (toolCalls turn) as [|c calls].
    + intros [= <- <-]. simpl. rewrite length_app. simpl. lia.
    + apply IH. simpl. rewrite length_app. simpl. lia.
Qed.

(** With more fuel than steps are left, the loop ends. *)
Lemma loop_ends (fuel : nat) :
  forall st w,
    (length (steps st) <= n)%nat ->
    (n - length (steps st) < fuel)%nat ->
    (loop fuel cfg st w).1 <> None.
Proof.
  induction fuel as [|fuel IH]; intros st w Hle Hfuel; simpl; [lia |].
  rewrite Hstop. unfold stepCountIs.
  destruct (Nat.eqb_spec (length (steps st)) n) as [E|E]; [discriminate |].
  destruct (model cfg (transcript st)) as [e|turn]; [discriminate |].
  destruct (callTools (tools cfg) (toolCalls turn) w) as [results w1].
  destruct (toolCalls turn) as [|c calls]; [discriminate |].
  apply IH; simpl; rewrite length_app; simpl; lia.
Qed.

(** Against an engine that asks for a tool call in every answer, the
    loop ends at the limit, with a result. *)
Lemma loop_busy (fuel : nat) :
  (forall msgs, exists turn, model cfg msgs = inr turn /\ toolCalls turn <> []) ->
  forall st w,
    (length (steps st) <= n)%nat ->
    (n - length (steps st) < fuel)%nat ->
    exists r w',
      loop fuel cfg st w = (Some (inr r), w') /\
      length (resultSteps r) = n /\ finish r = StepLimitExceeded.
Proof.
  intros Hbusy.
  induction fuel as [|fuel IH]; intros st w Hle Hfuel; simpl; [lia |].
  rewrite Hstop. unfold stepCountIs.
  destruct (Nat.eqb_spec (length (steps st)) n) as [E|E].
  - eexists _, _. split; [reflexivity |]. simpl. now split.
  - destruct (Hbusy (transcript st)) as (turn & -> & Hcalls).
    destruct (callTools (tools cfg) (toolCalls turn) w) as [results w1].
    destruct (toolCalls turn) as [|c calls]; [contradiction |].
    apply IH; simpl; rewrite length_app; simpl; lia.
Qed.

End StepLimit.

(** The two loops run in step: from corresponding states they make the
    same calls of the engine and of the tools, and end alike. *)
Lemma loops_agree (fuel : nat) (cfg : Settings) :
  forall st sst w,
    corresponds st sst ->
    loop fuel cfg st w
    = (settledOutcome (streamLoop fuel cfg sst w).1, (streamLoop fuel cfg sst w).2).
Proof.
  induction fuel as [|fuel IH];
    intros [idx tr acc u stp] [str em sstp] w (Ht & Hs & Ha & Hu);
    simpl in Ht, Hs, Ha, Hu; subst; simpl; [reflexivity |].
  destruct (stopWhen cfg sstp); [reflexivity |].
  destruct (model cfg str) as [e|turn]; [reflexivity |].
  destruct (callTools (tools cfg) (toolCalls turn) w) as [results w1].
  destruct (toolCalls turn) as [|c calls].
  - simpl. unfold finishWith, settled, settle. simpl.
    rewrite concatText_app, map_app. simpl. now rewrite sumUsage_snoc.
  - apply IH. unfold corresponds. simpl.
    rewrite concatText_app, map_app. simpl. now rewrite sumUsage_snoc.
Qed.

End LoopFacts.

(** ** Claims about the agent loop *)

(** C2. Whatever the engine does, a run of the handler that returns a
    response reports at most 20 steps, and with more than 20 units of
    fuel the run does not run out. When the engine asks for a tool call
    in every answer (and the output directory could be made), the loop
    ends at step 20 on the step limit and still returns a response, not
    an error: its text and usage are those accumulated over the 20
    steps. *)
Theorem agent_loop_step_limit
        (sh : child_process.Shell) (gateway : string -> ai.LanguageModel)
        (SYSTEM_PROMPT : string) (fuel : nat) (uuid : string)
        (body : GenerateRequest) (w : World) :
  let run := handleGenerate sh gateway SYSTEM_PROMPT fuel uuid body w in
  let outputDir := Path.join (cwd w) ["generated"; uuid] in
  (forall resp w', run = (Some (inr resp), w') -> (steps resp <= 20)%nat) /\
  ((20 < fuel)%nat -> run.1 <> None) /\
  ((20 < fuel)%nat ->
   (forall m msgs, exists turn, gateway m msgs = inr turn /\ ai.toolCalls turn <> []) ->
   (Fs.mkdirSync_recursive outputDir w).1 = inr tt ->
   exists result w',
     ai.generateText fuel (settings sh gateway SYSTEM_PROMPT body outputDir)
                     (Fs.mkdirSync_recursive outputDir w).2
     = (Some (inr result), w') /\
     length (ai.resultSteps result) = 20%nat /\
     ai.finish result = ai.StepLimitExceeded /\
     ai.text result = ai.concatText (map ai.stepText (ai.resultSteps result)) /\
     ai.usage result = ai.sumUsage (map ai.stepUsage (ai.resultSteps result)) /\
     run = (Some (inr {| requestId := uuid;
                         text := ai.text result;
                         usage := ai.usage result;
                         steps := 20 |}), w')).
Proof.
  intros run outputDir. subst run. unfold handleGenerate. fold outputDir.
  destruct (Fs.mkdirSync_recursive outputDir w) as [[e|[]] w1] eqn:Hmk; simpl.
  - split; [intros resp w' [=] |]. split; [discriminate |]. intros _ _ [=].
  - unfold ai.generateText.
    set (cfg := settings sh gateway SYSTEM_PROMPT body outputDir).
    assert (Hstop : ai.stopWhen cfg = ai.stepCountIs 20) by reflexivity.
    split; [| split].
    + intros resp w'.
      destruct (ai.loop fuel cfg (ai.initialState cfg) w1) as [[[e|r]|] w2] eqn:Hrun;
        try discriminate.
      intros [= <- <-]. simpl.
      eapply (loop_steps_bound cfg 20 Hstop); [| exact Hrun]. simpl. lia.
    + intros Hfuel.
      pose proof (loop_ends cfg 20 Hstop fuel (ai.initialState cfg) w1) as Hends.
      destruct (ai.loop fuel cfg (ai.initialState cfg) w1) as [[[e|r]|] w2];
        simpl in *; try discriminate.
      exfalso. apply Hends; [lia | lia | reflexivity].
    + intros Hfuel Hbusy _.
      destruct (loop_busy cfg 20 Hstop fuel (Hbusy _) (ai.initialState cfg) w1)
        as (r & w' & Hrun & Hlen & Hfin); [simpl; lia | simpl; lia |].
      destruct (loop_accumulates fuel cfg _ _ _ _ (accumulated_initial cfg) Hrun)
        as [Htext Husage].
      exists r, w'. rewrite Hrun, Hlen. repeat split; assumption.
Qed.

Lemma agent_loop_step_limit_witness :
  exists resp w',
    handleGenerate Samples.shell Samples.busy_engine "prompt" 21 "req-1"
                   Samples.request Samples.w0
    = (Some (inr resp), w') /\
    steps resp = 20%nat /\ requestId resp = "req-1".
Proof.
  destruct (agent_loop_step_limit Samples.shell Samples.busy_engine "prompt" 21 "req-1"
              Samples.request Samples.w0) as (_ & _ & H).
  destruct H as (result & w' & _ & _ & _ & _ & _ & Hrun).
  - lia.
  - intros m msgs. eexists. split; [reflexivity | discriminate].
  - vm_compute. reflexivity.
  - eexists _, w'. split; [exact Hrun |]. split; reflexivity.
Defined.

(** Copying the text stream to the standard output changes neither the
    files nor the record of the commands run. *)
Lemma stdout_write_frame (chunks : list string) (w : World) :
  files (fold_left (fun w textPart => stdout_write textPart w) chunks w) = files w /\
  executed (fold_left (fun w textPart => stdout_write textPart w) chunks w) = executed w.
Proof.
  revert w; induction chunks as [|x l IH]; intros w; simpl; [now split |].
  destruct (IH (stdout_write x w)) as [-> ->]. now split.
Qed.

(** The scripted run of the samples: the [view] of the first turn sees
    the file that the [create] before it wrote; the failing command of the
    second turn comes back as a text and the loop goes on; the response
    carries the text and the usage of the three turns. *)
Example scripted_run :
  let run := handleGenerate Samples.shell Samples.scripted_engine "prompt" 21 "req-1"
                            Samples.request Samples.w0 in
  run.1 = Some (inr {| requestId := "req-1";
                       text := "Writing. Checking. Done.";
                       usage := ai.mkUsage 420 35 455;
                       steps := 3 |}) /\
  executed run.2 = ["python3 -c 'print(1/0)'"] /\
  files run.2 !! ["srv"; "app"; "out.txt"] = Some (File "hello") /\
  files run.2 !! ["srv"; "app"; "generated"; "req-1"] = Some Dir.
Proof. repeat split; vm_compute; reflexivity. Qed.

Example scripted_run_results :
  let cfg := settings Samples.shell Samples.scripted_engine "prompt" Samples.request
                      ["srv"; "app"; "generated"; "req-1"] in
  match (ai.generateText 21 cfg Samples.w0).1 with
  | Some (inr result) =>
      map (fun st => map ai.output (ai.stepToolResults st)) (ai.resultSteps result)
  | _ => []
  end
  = [["File created: out.txt"; "hello"];
     ["Error: Command failed: python3 -c 'print(1/0)'" ++ JS.NL
      ++ "ZeroDivisionError: division by zero" ++ JS.NL ++ JS.NL
      ++ "Stderr: ZeroDivisionError: division by zero" ++ JS.NL ++ JS.NL
      ++ "Stdout: "];
     []].
Proof. vm_compute. reflexivity. Qed.

(** C5. For every topic, model choice and engine, from the same world and
    with the same request identifier, the blocking variant and the
    streaming variant of the handler end alike: both run out of fuel, or
    both fail with the same fault, or both return the same text, the same
    usage and the same number of steps; and they leave the same files and
    have run the same commands. *)
Theorem blocking_and_streaming_agree
        (sh : child_process.Shell) (gateway : string -> ai.LanguageModel)
        (SYSTEM_PROMPT : string) (fuel : nat) (uuid : string)
        (body : GenerateRequest) (w : World) :
  let blocking := handleGenerate sh gateway SYSTEM_PROMPT fuel uuid body w in
  let streaming := handleGenerate_stream sh gateway SYSTEM_PROMPT fuel uuid body w in
  aggregate blocking.1 = aggregate streaming.1 /\
  files blocking.2 = files streaming.2 /\
  executed blocking.2 = executed streaming.2.
Proof.
  intros blocking streaming. subst blocking streaming.
  unfold handleGenerate, handleGenerate_stream.
  set (outputDir := Path.join (cwd w) ["generated"; uuid]).
  destruct (Fs.mkdirSync_recursive outputDir w) as [[e|[]] w1]; [repeat split |].
  set (cfg := settings sh gateway SYSTEM_PROMPT body outputDir).
  unfold ai.generateText, ai.streamText.
  rewrite (loops_agree fuel cfg (ai.initialState cfg)
             (ai.mkStreamState [ai.SystemMessage (ai.system cfg);
                                ai.UserMessage (ai.prompt cfg)] [] []) w1)
    by (repeat split).
  destruct (ai.streamLoop fuel cfg _ w1) as [[[e|r]|] w2]; simpl; try (repeat split).
  - symmetry. apply stdout_write_frame.
  - symmetry. apply stdout_write_frame.
Qed.

(** * Further properties of the code *)

(** ** The file-editing tool on paths that hold no regular file *)

(** X1. [str_replace] and [insert] on a path at which nothing exists
    report that the file was not found, each in its own words, and leave
    the world as it is. *)
Theorem mutating_missing_file_reports (w : World) (p old new text : string) (i : Z) :
  Fs.existsSync (Path.resolve (cwd w) p) w = false ->
  getTextEditorTool.execute (getTextEditorTool.str_replace p old new) w
  = (inr ("Error: File " ++ p ++ " not found for str_replace"), w) /\
  getTextEditorTool.execute (getTextEditorTool.insert p i text) w
  = (inr ("Error: File " ++ p ++ " not found for insert"), w).
Proof.
  intros H. unfold getTextEditorTool.execute, getTextEditorTool.str_replace,
    getTextEditorTool.insert. simpl. rewrite H. split; reflexivity.
Qed.

Lemma mutating_missing_file_reports_witness :
  getTextEditorTool.execute (getTextEditorTool.str_replace "a.txt" "x" "y") Samples.w0
  = (inr "Error: File a.txt not found for str_replace", Samples.w0) /\
  getTextEditorTool.execute (getTextEditorTool.insert "a.txt" 0 "y") Samples.w0
  = (inr "Error: File a.txt not found for insert", Samples.w0).
Proof.
  apply (mutating_missing_file_reports Samples.w0 "a.txt" "x" "y" "y" 0).
  vm_compute. reflexivity.
Defined.

(** X2. On a path that resolves to a directory, [view] (with or without
    a range), [str_replace] and [insert] do not report a missing file:
    the existence test passes and reading throws [EISDIR], the world
    staying as it is. *)
Theorem directory_path_throws (w : World) (p old new text : string) (i : Z)
        (range : list Z) :
  Fs.is_dir (files w) (Path.resolve (cwd w) p) = true ->
  getTextEditorTool.execute (getTextEditorTool.view p) w = (inl EISDIR, w) /\
  getTextEditorTool.execute (getTextEditorTool.view_lines p range) w = (inl EISDIR, w) /\
  getTextEditorTool.execute (getTextEditorTool.str_replace p old new) w = (inl EISDIR, w) /\
  getTextEditorTool.execute (getTextEditorTool.insert p i text) w = (inl EISDIR, w).
Proof.
  unfold Fs.is_dir. intros H.
  unfold getTextEditorTool.execute, getTextEditorTool.view, getTextEditorTool.view_lines,
    getTextEditorTool.str_replace, getTextEditorTool.insert,
    Fs.existsSync, bind, Fs.readFileSync. simpl.
  destruct (Fs.node_at (files w) (Path.resolve (cwd w) p)) as [[c|]|]; try discriminate.
  repeat split.
Qed.

Lemma directory_path_throws_witness :
  getTextEditorTool.execute (getTextEditorTool.view "out") Samples.w_out
  = (inl EISDIR, Samples.w_out) /\
  getTextEditorTool.execute (getTextEditorTool.view_lines "out" [1; 2]) Samples.w_out
  = (inl EISDIR, Samples.w_out) /\
  getTextEditorTool.execute (getTextEditorTool.str_replace "out" "a" "b") Samples.w_out
  = (inl EISDIR, Samples.w_out) /\
  getTextEditorTool.execute (getTextEditorTool.insert "out" 0 "b") Samples.w_out
  = (inl EISDIR, Samples.w_out).
Proof.
  apply (directory_path_throws Samples.w_out "out" "a" "b" "b" 0 [1; 2]).
  vm_compute. reflexivity.
Defined.

(** X3. A call whose command is none of [create], [str_replace] and
    [insert] changes nothing, whatever it returns or throws; and when the
    command is not [view] either, it returns [Unknown command:] followed
    by the command, without looking at the path. *)
Theorem reading_changes_nothing (i : getTextEditorTool.Input) (w : World) :
  getTextEditorTool.command i <> "create" ->
  getTextEditorTool.command i <> "str_replace" ->
  getTextEditorTool.command i <> "insert" ->
  (getTextEditorTool.execute i w).2 = w /\
  (getTextEditorTool.command i <> "view" ->
   getTextEditorTool.execute i w
   = (inr ("Unknown command: " ++ getTextEditorTool.command i), w)).
Proof.
  intros Hc Hs Hi. unfold getTextEditorTool.execute.
  destruct (String.eqb_spec (getTextEditorTool.command i) "view") as [Ev|Ev].
  - split; [| contradiction].
    unfold Fs.existsSync, bind, Fs.readFileSync, ret.
    destruct (Fs.node_at (files w) _) as [[c|]|]; simpl; try reflexivity.
    destruct (getTextEditorTool.view_range i); reflexivity.
  - destruct (String.eqb_spec (getTextEditorTool.command i) "create"); [contradiction |].
    destruct (String.eqb_spec (getTextEditorTool.command i) "str_replace"); [contradiction |].
    destruct (String.eqb_spec (getTextEditorTool.command i) "insert"); [contradiction |].
    split; reflexivity.
Qed.

Lemma reading_changes_nothing_witness :
  (getTextEditorTool.execute (Further.bare "delete" "out/a.txt") Samples.w_out).2
  = Samples.w_out /\
  getTextEditorTool.execute (Further.bare "delete" "out/a.txt") Samples.w_out
  = (inr "Unknown command: delete", Samples.w_out).
Proof.
  destruct (reading_changes_nothing (Further.bare "delete" "out/a.txt") Samples.w_out)
    as [H1 H2]; try discriminate.
  split; [exact H1 | apply H2; discriminate].
Defined.

(** ** What a call of the file-editing tool leaves alone *)

Section FrameFacts.

Implicit Types (fs : gmap (list string) Node) (p q base rest : list string).

(** The walk of [mkdirSync] removes and overwrites nothing, whether it
    ends well or not. *)
Lemma mkdirp_keeps base rest fs :
  forall q n, fs !! q = Some n -> (Fs.mkdirp base rest fs).2 !! q = Some n.
Proof.
  revert base fs; induction rest as [|c rest IH]; intros base fs q n Hq; simpl;
    [exact Hq |].
  destruct (fs !! (base ++ [c])%list) as [[c0|]|] eqn:E; simpl.
  - exact Hq.
  - now apply IH.
  - apply IH. rewrite lookup_insert_ne; [exact Hq |]. intros <-. congruence.
Qed.

(** The walk makes directories only. *)
Lemma mkdirp_makes_directories base rest fs :
  forall q c, (Fs.mkdirp base rest fs).2 !! q = Some (File c) -> fs !! q = Some (File c).
Proof.
  revert base fs; induction rest as [|c rest IH]; intros base fs q c0; simpl;
    [auto |].
  destruct (fs !! (base ++ [c])%list) as [[c1|]|] eqn:E; simpl.
  - auto.
  - apply IH.
  - intros H%IH. destruct (decide ((base ++ [c])%list = q)) as [<-|Hne].
    + rewrite lookup_insert_eq in H. discriminate.
    + now rewrite lookup_insert_ne in H.
Qed.

(** Where every directory on the way is there, the walk changes nothing. *)
Lemma mkdirp_existing base rest fs :
  (forall k, (1 <= k <= length rest)%nat -> fs !! (base ++ take k rest)%list = Some Dir) ->
  Fs.mkdirp base rest fs = (None, fs).
Proof.
  revert base; induction rest as [|c rest IH]; intros base Hdirs; simpl; [reflexivity |].
  pose proof (Hdirs 1%nat ltac:(simpl; lia)) as H1.
  change (take 1 (c :: rest)) with [c] in H1. rewrite H1.
  apply IH. intros k Hk. rewrite extend_step. apply Hdirs. simpl. lia.
Qed.

Lemma frame_refl p (w : World) : Further.frame p w w.
Proof. unfold Further.frame. repeat split; auto. Qed.

Lemma frame_trans p (w1 w2 w3 : World) :
  Further.frame p w1 w2 -> Further.frame p w2 w3 -> Further.frame p w1 w3.
Proof.
  intros (Hc & He & Hw & Hk & Hp & Hf) (Hc' & He' & Hw' & Hk' & Hp' & Hf').
  unfold Further.frame. repeat split; try congruence; eauto.
Qed.

Lemma frame_mkdir p d (w : World) :
  Further.frame p w (Fs.mkdirSync_recursive d w).2.
Proof.
  unfold Fs.mkdirSync_recursive.
  pose proof (mkdirp_keeps [] d (files w)) as Hk.
  pose proof (mkdirp_makes_directories [] d (files w)) as Hf.
  destruct (Fs.mkdirp [] d (files w)) as [[e|] fs']; simpl in *;
    (unfold Further.frame; simpl; repeat split; eauto;
     intros [n Hn]; eauto).
Qed.

Lemma frame_write p (data : option string) (w : World) :
  Further.frame p w (Fs.writeFileSync p data w).2.
Proof.
  assert (Hins : forall t, Further.frame p w (with_files (<[p := File t]> (files w)) w)).
  { intros t. unfold Further.frame. simpl. repeat split.
    - intros q n Hq Hn. now rewrite lookup_insert_ne.
    - intros _. rewrite lookup_insert_eq. eauto.
    - intros q c Hq Hc. now rewrite lookup_insert_ne in Hc. }
  unfold Fs.writeFileSync. destruct data as [t|]; [| apply frame_refl].
  destruct (Fs.node_at (files w) p) as [[c|]|]; simpl; auto using frame_refl.
  destruct (Fs.node_at (files w) (Path.dirname p)) as [[c|]|]; simpl; auto using frame_refl.
Qed.

End FrameFacts.

(** X4. Whatever the call and whether it succeeds or throws, the
    file-editing tool leaves the working directory, the record of the
    commands run and the standard output as they were, removes no node,
    changes no node at any path but the one addressed, and makes no
    regular file at any other path (it may make directories). *)
Theorem editor_frame (i : getTextEditorTool.Input) (w : World) :
  Further.frame (Path.resolve (cwd w) (getTextEditorTool.path i)) w
                (getTextEditorTool.execute i w).2.
Proof.
  set (fullPath := Path.resolve (cwd w) (getTextEditorTool.path i)).
  unfold getTextEditorTool.execute. fold fullPath.
  assert (Hread : forall (k : string -> M string),
             (forall c, Further.frame fullPath w (k c w).2) ->
             Further.frame fullPath w (bind (Fs.readFileSync fullPath) k w).2).
  { intros k Hk. unfold bind, Fs.readFileSync.
    destruct (Fs.node_at (files w) fullPath) as [[c|]|]; simpl;
      auto using frame_refl. }
  assert (Hwrite : forall data (k : unit -> M string) (w1 : World),
             (forall w2, (k tt w2).2 = w2) ->
             Further.frame fullPath w1 (bind (Fs.writeFileSync fullPath data) k w1).2).
  { intros data k w1 Hk. unfold bind.
    pose proof (frame_write fullPath data w1) as Hf.
    destruct (Fs.writeFileSync fullPath data w1) as [[e|[]] w2]; simpl in *;
      [exact Hf | now rewrite Hk]. }
  destruct (String.eqb (getTextEditorTool.command i) "view").
  { destruct (negb (Fs.existsSync fullPath w)); [apply frame_refl |].
    apply Hread. intros c. destruct (getTextEditorTool.view_range i); apply frame_refl. }
  destruct (String.eqb (getTextEditorTool.command i) "create").
  { unfold bind at 1.
    pose proof (frame_mkdir fullPath (Path.dirname fullPath) w) as Hm.
    destruct (Fs.mkdirSync_recursive (Path.dirname fullPath) w) as [[e|[]] w1];
      simpl in Hm; [exact Hm |].
    eapply frame_trans; [exact Hm |]. now apply Hwrite. }
  destruct (String.eqb (getTextEditorTool.command i) "str_replace").
  { destruct (negb (Fs.existsSync fullPath w)); [apply frame_refl |].
    apply Hread. intros c.
    destruct (negb (JS.includes c _)); [apply frame_refl |]. now apply Hwrite. }
  destruct (String.eqb (getTextEditorTool.command i) "insert").
  { destruct (negb (Fs.existsSync fullPath w)); [apply frame_refl |].
    apply Hread. intros c. now apply Hwrite. }
  apply frame_refl.
Qed.

(** ** How [create] composes *)

(** [create] at a writable path, with the world it leaves spelled out. *)
Lemma create_run (w : World) (p t : string) :
  let fullPath := Path.resolve (cwd w) p in
  Fs.writable (files w) fullPath = true ->
  exists fs1,
    Fs.mkdirp [] (Path.dirname fullPath) (files w) = (None, fs1) /\
    fs1 !! fullPath = files w !! fullPath /\
    Fs.node_at fs1 (Path.dirname fullPath) = Some Dir /\
    (forall k, (1 <= k <= length fullPath - 1)%nat -> fs1 !! take k fullPath = Some Dir) /\
    getTextEditorTool.execute (getTextEditorTool.create p t) w
    = (inr ("File created: " ++ p), with_files (<[fullPath := File t]> fs1) w).
Proof.
  intros fullPath [Hnodir Hanc]%writable_spec.
  assert (Hne : fullPath <> []).
  { intros E. rewrite E in Hnodir. discriminate. }
  destruct (mkdirp_parent (files w) fullPath Hne Hanc) as (fs1 & Hrun & Hp & Hparent).
  exists fs1. split; [exact Hrun |]. split; [exact Hp |]. split; [exact Hparent |]. split.
  - intros k Hk.
    destruct (mkdirp_ok [] (Path.dirname fullPath) (files w)) as (fs' & Hrun' & Hdirs & _).
    { intros j Hj c. rewrite length_dirname in Hj. simpl.
      rewrite take_dirname by lia. specialize (Hanc j Hj).
      unfold Fs.is_file in Hanc. intros E.
      rewrite node_at_nonroot, E in Hanc; [discriminate |].
      intros E'. apply (f_equal length) in E'. rewrite length_take in E'. simpl in E'. lia. }
    rewrite Hrun in Hrun'. injection Hrun' as <-.
    specialize (Hdirs k). simpl in Hdirs. rewrite take_dirname in Hdirs by lia.
    apply Hdirs. rewrite length_dirname. lia.
  - unfold getTextEditorTool.execute, getTextEditorTool.create, bind,
      Fs.mkdirSync_recursive, Fs.writeFileSync, ret. simpl.
    fold fullPath. rewrite Hrun. simpl.
    rewrite (node_at_nonroot fs1 fullPath Hne), Hp, Hparent.
    unfold Fs.is_dir in Hnodir. rewrite node_at_nonroot in Hnodir by exact Hne.
    destruct (files w !! fullPath) as [[c|]|]; try discriminate; reflexivity.
Qed.

(** X5. After a [create] that succeeded, [view] returns the text for
    every spelling of the path that resolves to the same place, not only
    for the spelling that was used. *)
Theorem view_through_another_spelling (w : World) (p q t : string) :
  Fs.writable (files w) (Path.resolve (cwd w) p) = true ->
  Path.resolve (cwd w) q = Path.resolve (cwd w) p ->
  exists w',
    getTextEditorTool.execute (getTextEditorTool.create p t) w
    = (inr ("File created: " ++ p), w') /\
    getTextEditorTool.execute (getTextEditorTool.view q) w' = (inr t, w').
Proof.
  intros Hw Hq.
  destruct (create_writable w p t Hw) as (w' & Hrun & Hcwd & _ & _ & Hfile & _).
  exists w'. split; [exact Hrun |].
  apply view_file. rewrite Hcwd, Hq. exact Hfile.
Qed.

Lemma view_through_another_spelling_witness :
  exists w',
    getTextEditorTool.execute (getTextEditorTool.create "out/a.txt" "hello") Samples.w0
    = (inr "File created: out/a.txt", w') /\
    getTextEditorTool.execute (getTextEditorTool.view "/srv/app/tmp/../out//./a.txt") w'
    = (inr "hello", w').
Proof.
  apply (view_through_another_spelling Samples.w0 "out/a.txt"
           "/srv/app/tmp/../out//./a.txt" "hello"); vm_compute; reflexivity.
Defined.

(** X6. The last [create] wins: creating a file and creating it again
    with another text leaves the world that the second [create] alone
    would have left. *)
Theorem create_twice_is_last_create (w : World) (p t1 t2 : string) :
  Fs.writable (files w) (Path.resolve (cwd w) p) = true ->
  exists w1 w2,
    getTextEditorTool.execute (getTextEditorTool.create p t1) w
    = (inr ("File created: " ++ p), w1) /\
    getTextEditorTool.execute (getTextEditorTool.create p t2) w1
    = (inr ("File created: " ++ p), w2) /\
    getTextEditorTool.execute (getTextEditorTool.create p t2) w
    = (inr ("File created: " ++ p), w2).
Proof.
  intros Hw. set (fullPath := Path.resolve (cwd w) p) in *.
  destruct (create_run w p t1 Hw) as (fs1 & Hmk & Hp & Hparent & Hdirs & Hrun1).
  destruct (create_run w p t2 Hw) as (fs1' & Hmk' & _ & _ & _ & Hrun2).
  fold fullPath in Hmk, Hmk', Hp, Hparent, Hdirs, Hrun1, Hrun2.
  rewrite Hmk in Hmk'. injection Hmk' as <-.
  set (w1 := with_files (<[fullPath := File t1]> fs1) w) in *.
  assert (Hne : fullPath <> []).
  { apply writable_spec in Hw as [Hnodir _]. intros E. rewrite E in Hnodir. discriminate. }
  assert (Hanc1 : forall k, (1 <= k <= length fullPath - 1)%nat ->
                            files w1 !! take k fullPath = Some Dir).
  { intros k Hk. simpl. rewrite lookup_insert_ne; [now apply Hdirs |].
    intros E. apply (f_equal length) in E. rewrite length_take in E. lia. }
  assert (Hmk1 : Fs.mkdirp [] (Path.dirname fullPath) (files w1) = (None, files w1)).
  { apply mkdirp_existing. intros k Hk. rewrite length_dirname in Hk. simpl.
    rewrite take_dirname by lia. now apply Hanc1. }
  exists w1, (with_files (<[fullPath := File t2]> fs1) w).
  split; [exact Hrun1 |]. split; [| exact Hrun2].
  unfold getTextEditorTool.execute, getTextEditorTool.create, bind,
    Fs.mkdirSync_recursive, Fs.writeFileSync, ret. simpl.
  change (Path.resolve (cwd w) p) with fullPath.
  change (<[fullPath := File t1]> fs1) with (files w1). rewrite Hmk1. simpl.
  rewrite node_at_nonroot by exact Hne. rewrite lookup_insert_eq.
  unfold with_files. simpl. now rewrite insert_insert_eq.
Qed.

Lemma create_twice_is_last_create_witness :
  exists w1 w2,
    getTextEditorTool.execute (getTextEditorTool.create "out/a.txt" "first") Samples.w0
    = (inr "File created: out/a.txt", w1) /\
    getTextEditorTool.execute (getTextEditorTool.create "out/a.txt" "second") w1
    = (inr "File created: out/a.txt", w2) /\
    getTextEditorTool.execute (getTextEditorTool.create "out/a.txt" "second") Samples.w0
    = (inr "File created: out/a.txt", w2).
Proof.
  apply (create_twice_is_last_create Samples.w0 "out/a.txt" "first" "second").
  vm_compute. reflexivity.
Defined.

(** X7. A [create] without [file_text] throws a [TypeError], and only
    after the parent directories were made: they stay, while what was at
    the path itself is untouched. *)
Theorem create_without_text_leaves_directories (w : World) (p : string) :
  let fullPath := Path.resolve (cwd w) p in
  Fs.writable (files w) fullPath = true ->
  exists w',
    getTextEditorTool.execute (Further.create_without_text p) w = (inl TypeError, w') /\
    Fs.is_dir (files w') (Path.dirname fullPath) = true /\
    files w' !! fullPath = files w !! fullPath.
Proof.
  intros fullPath Hw.
  destruct (create_run w p "" Hw) as (fs1 & Hmk & Hp & Hparent & _ & _).
  fold fullPath in Hmk, Hp, Hparent.
  exists (with_files fs1 w). split; [| split].
  - unfold getTextEditorTool.execute, Further.create_without_text, Further.bare, bind,
      Fs.mkdirSync_recursive, Fs.writeFileSync. simpl.
    fold fullPath. now rewrite Hmk.
  - unfold Fs.is_dir. simpl. now rewrite Hparent.
  - exact Hp.
Qed.

Lemma create_without_text_leaves_directories_witness :
  exists w',
    getTextEditorTool.execute (Further.create_without_text "deep/er/a.txt") Samples.w0
    = (inl TypeError, w') /\
    Fs.is_dir (files w') ["srv"; "app"; "deep"; "er"] = true /\
    files w' !! ["srv"; "app"; "deep"; "er"; "a.txt"] = None.
Proof.
  apply (create_without_text_leaves_directories Samples.w0 "deep/er/a.txt").
  vm_compute. reflexivity.
Defined.

(** ** [str_replace] beyond a single occurrence *)

(** The occurrence that [search] finds is the leftmost one. *)
Lemma search_leftmost (pat s pre post : string) :
  JS.search pat s = Some (pre, post) ->
  forall pre' post', s = pre' ++ pat ++ post' ->
                     (String.length pre <= String.length pre')%nat.
Proof.
  revert pre; induction s as [|c s IH]; intros pre; rewrite search_unfold.
  - destruct (JS.startsWith pat ""); [|discriminate].
    intros [= <- _] pre' post' _. simpl. lia.
  - destruct (JS.startsWith pat (String c s)) eqn:E.
    + intros [= <- _] pre' post' _. simpl. lia.
    + destruct (JS.search pat s) as [[pre0 post0]|] eqn:Es; [|discriminate].
      intros [= <- <-] pre' post' Hs.
      destruct pre' as [|c' pre'].
      * simpl in Hs. rewrite Hs, startsWith_app in E. discriminate.
      * simpl in Hs. injection Hs as _ Hs. simpl.
        specialize (IH pre0 eq_refl pre' post' Hs). lia.
Qed.

Lemma includes_search (s pat : string) :
  JS.includes s pat = true -> exists pre post, JS.search pat s = Some (pre, post).
Proof.
  unfold JS.includes. destruct (JS.search pat s) as [[pre post]|]; [eauto | discriminate].
Qed.

(** [str_replace] on a content in which [old] was found. *)
Lemma str_replace_run (w : World) (p old new current pre post : string) :
  let fullPath := Path.resolve (cwd w) p in
  Fs.node_at (files w) fullPath = Some (File current) ->
  JS.search old current = Some (pre, post) ->
  getTextEditorTool.execute (getTextEditorTool.str_replace p old new) w
  = (inr ("File updated: " ++ p),
     with_files (<[fullPath := File (pre ++ JS.GetSubstitution old pre post new ++ post)]>
                   (files w)) w).
Proof.
  intros fullPath Hfile Hfound.
  unfold getTextEditorTool.execute, getTextEditorTool.str_replace, bind, Fs.existsSync,
    Fs.readFileSync, Fs.writeFileSync, ret, JS.includes, JS.replace. simpl.
  fold fullPath. rewrite Hfile, Hfound. simpl. now rewrite Hfile.
Qed.

Lemma GetSubstitution_escaped (matched pre post s : string) :
  JS.GetSubstitution matched pre post (Further.escapeDollars s) = s.
Proof.
  induction s as [|c r IH]; simpl; [reflexivity |].
  destruct (Ascii.eqb_spec c JS.dollar) as [->|Hc]; simpl.
  - now rewrite IH.
  - destruct (Ascii.eqb_spec c JS.dollar) as [|_]; [contradiction |]. now rewrite IH.
Qed.

(** X8. [str_replace] does not ask for [old_str] to be unique: when it
    occurs, however often, the call succeeds and replaces the leftmost
    occurrence only (here for a [new_str] without dollar signs). *)
Theorem str_replace_leftmost (w : World) (p old new current : string) :
  let fullPath := Path.resolve (cwd w) p in
  Fs.node_at (files w) fullPath = Some (File current) ->
  JS.includes current old = true ->
  JS.mentions JS.dollar new = false ->
  exists pre post,
    current = pre ++ old ++ post /\
    (forall pre' post', current = pre' ++ old ++ post' ->
                        (String.length pre <= String.length pre')%nat) /\
    getTextEditorTool.execute (getTextEditorTool.str_replace p old new) w
    = (inr ("File updated: " ++ p),
       with_files (<[fullPath := File (pre ++ new ++ post)]> (files w)) w).
Proof.
  intros fullPath Hfile (pre & post & Hfound)%includes_search Hlit.
  exists pre, post. split; [now apply search_sound |].
  split; [now apply (search_leftmost old current pre post) |].
  rewrite (str_replace_run w p old new current pre post Hfile Hfound).
  now rewrite GetSubstitution_literal.
Qed.

Lemma str_replace_leftmost_witness :
  exists pre post,
    "a cat and a cat" = pre ++ "cat" ++ post /\
    (forall pre' post', "a cat and a cat" = pre' ++ "cat" ++ post' ->
                        (String.length pre <= String.length pre')%nat) /\
    getTextEditorTool.execute (getTextEditorTool.str_replace "pets.txt" "cat" "dog")
                              Further.w_cats
    = (inr "File updated: pets.txt",
       with_files (<[["srv"; "app"; "pets.txt"] := File (pre ++ "dog" ++ post)]>
                     (files Further.w_cats)) Further.w_cats).
Proof.
  apply (str_replace_leftmost Further.w_cats "pets.txt" "cat" "dog" "a cat and a cat");
    vm_compute; reflexivity.
Defined.

Example str_replace_leftmost_run :
  (getTextEditorTool.execute (getTextEditorTool.view "pets.txt")
     (getTextEditorTool.execute (getTextEditorTool.str_replace "pets.txt" "cat" "dog")
        Further.w_cats).2).1
  = inr "a dog and a cat".
Proof. vm_compute. reflexivity. Qed.

(** X9. An empty [old_str] is found in every file, also in an empty one:
    [str_replace] then never reports a missing pattern and puts [new_str]
    (here without dollar signs) in front of the content. *)
Theorem str_replace_empty_old_prepends (w : World) (p new current : string) :
  let fullPath := Path.resolve (cwd w) p in
  Fs.node_at (files w) fullPath = Some (File current) ->
  JS.mentions JS.dollar new = false ->
  getTextEditorTool.execute (getTextEditorTool.str_replace p "" new) w
  = (inr ("File updated: " ++ p),
     with_files (<[fullPath := File (new ++ current)]> (files w)) w).
Proof.
  intros fullPath Hfile Hlit.
  assert (Hfound : JS.search "" current = Some ("", current))
    by (rewrite search_unfold; reflexivity).
  rewrite (str_replace_run w p "" new current "" current Hfile Hfound).
  now rewrite GetSubstitution_literal.
Qed.

Lemma str_replace_empty_old_prepends_witness :
  getTextEditorTool.execute (getTextEditorTool.str_replace "pets.txt" "" "# ") Further.w_cats
  = (inr "File updated: pets.txt",
     with_files (<[["srv"; "app"; "pets.txt"] := File ("# " ++ "a cat and a cat")]>
                   (files Further.w_cats)) Further.w_cats).
Proof.
  apply (str_replace_empty_old_prepends Further.w_cats "pets.txt" "# " "a cat and a cat");
    vm_compute; reflexivity.
Defined.

(** X10. With every dollar sign of the wanted text doubled, [str_replace]
    writes the wanted text as it is: the leftmost occurrence of [old_str]
    gives way to it, and the length of the content changes by the
    difference of the two lengths. *)
Theorem str_replace_escaped_is_literal (w : World) (p old new current : string) :
  let fullPath := Path.resolve (cwd w) p in
  Fs.node_at (files w) fullPath = Some (File current) ->
  JS.includes current old = true ->
  exists pre post,
    current = pre ++ old ++ post /\
    getTextEditorTool.execute
      (getTextEditorTool.str_replace p old (Further.escapeDollars new)) w
    = (inr ("File updated: " ++ p),
       with_files (<[fullPath := File (pre ++ new ++ post)]> (files w)) w) /\
    (String.length (pre ++ new ++ post) + String.length old
     = String.length current + String.length new)%nat.
Proof.
  intros fullPath Hfile (pre & post & Hfound)%includes_search.
  pose proof (search_sound _ _ _ _ Hfound) as Hcur.
  exists pre, post. split; [exact Hcur |]. split.
  - rewrite (str_replace_run w p old _ current pre post Hfile Hfound).
    now rewrite GetSubstitution_escaped.
  - rewrite Hcur, !string_length_app. lia.
Qed.

Lemma str_replace_escaped_is_literal_witness :
  exists pre post,
    "formula = PLACEHOLDER" = pre ++ "PLACEHOLDER" ++ post /\
    getTextEditorTool.execute
      (getTextEditorTool.str_replace "scene.py" "PLACEHOLDER" "$$$$x^2$$$$") Samples.w_scene
    = (inr "File updated: scene.py",
       with_files (<[["srv"; "app"; "scene.py"] := File (pre ++ "$$x^2$$" ++ post)]>
                     (files Samples.w_scene)) Samples.w_scene) /\
    (String.length (pre ++ "$$x^2$$" ++ post) + String.length "PLACEHOLDER"
     = String.length "formula = PLACEHOLDER" + String.length "$$x^2$$")%nat.
Proof.
  apply (str_replace_escaped_is_literal Samples.w_scene "scene.py" "PLACEHOLDER" "$$x^2$$"
           "formula = PLACEHOLDER"); vm_compute; reflexivity.
Defined.

(** ** Lines: [view] with a range, and [insert] *)

(** Joining what [split] gave gives the text back. *)
Lemma join_split (sep : ascii) (s : string) :
  JS.join (String sep "") (JS.split sep s) = s.
Proof.
  induction s as [|c r IH]; [reflexivity |]. simpl JS.split.
  pose proof (split_not_nil sep r) as Hne.
  destruct (Ascii.eqb_spec c sep) as [->|Hc].
  - destruct (JS.split sep r) as [|h t]; [contradiction |].
    change (JS.join (String sep "") ("" :: h :: t))
      with (String sep (JS.join (String sep "") (h :: t))).
    now rewrite IH.
  - destruct (JS.split sep r) as [|h t]; [contradiction |].
    destruct t as [|y t].
    + simpl in *. now rewrite IH.
    + change (JS.join (String sep "") (String c h :: y :: t))
        with (String c (JS.join (String sep "") (h :: y :: t))).
      now rewrite IH.
Qed.

Lemma slice_in_range {A} (l : list A) (s e : Z) :
  0 <= s <= e -> e <= Z.of_nat (length l) ->
  JS.slice l s (Some e) = take (Z.to_nat (e - s)) (drop (Z.to_nat s) l).
Proof.
  intros Hs He. unfold JS.slice.
  rewrite !relativeIndex_in_range by lia. f_equal. lia.
Qed.

Lemma slice_all {A} (l : list A) (e : option Z) :
  match e with Some b => Z.of_nat (length l) <= b | None => True end ->
  JS.slice l 0 e = l.
Proof.
  intros He. unfold JS.slice.
  rewrite (relativeIndex_in_range (length l) 0) by lia. simpl.
  rewrite Nat.sub_0_r. apply take_ge.
  destruct e as [b|]; [| lia].
  unfold JS.relativeIndex. destruct (Z.ltb_spec b 0); lia.
Qed.

(** Splitting the join of some of the lines of a text gives those lines. *)
Lemma split_join_lines (content : string) (sub : list string) :
  sub <> [] ->
  Forall (fun x => JS.mentions JS.LF x = false) sub ->
  JS.split JS.LF (JS.join JS.NL sub) = sub.
Proof.
  intros Hne Hfree. unfold JS.NL. rewrite split_join by exact Hne.
  now apply concat_split_pieces.
Qed.

(** X11. For 1 <= a <= b <= number of lines, [view] with the range
    [[a, b]] returns the lines a to b of the file (counted from 1, both
    included), b - a + 1 of them, and changes nothing. *)
Theorem view_range_returns_lines (w : World) (p content : string) (a b : Z) :
  let lines := JS.split JS.LF content in
  Fs.node_at (files w) (Path.resolve (cwd w) p) = Some (File content) ->
  1 <= a -> a <= b -> b <= Z.of_nat (length lines) ->
  exists out,
    getTextEditorTool.execute (getTextEditorTool.view_lines p [a; b]) w = (inr out, w) /\
    JS.split JS.LF out = take (Z.to_nat (b - a + 1)) (drop (Z.to_nat (a - 1)) lines) /\
    Z.of_nat (length (JS.split JS.LF out)) = b - a + 1.
Proof.
  intros lines Hfile Ha Hab Hb.
  eexists. split; [apply view_range_file; exact Hfile |].
  simpl. fold lines. rewrite slice_in_range by lia.
  replace (b - (a - 1)) with (b - a + 1) by lia.
  assert (Hsub : JS.split JS.LF
                   (JS.join JS.NL (take (Z.to_nat (b - a + 1)) (drop (Z.to_nat (a - 1)) lines)))
                 = take (Z.to_nat (b - a + 1)) (drop (Z.to_nat (a - 1)) lines)).
  { apply (split_join_lines content).
    - intros E. apply (f_equal length) in E.
      rewrite length_take, length_drop in E. simpl in E. lia.
    - apply Forall_take, Forall_drop, split_pieces_free. }
  rewrite Hsub. split; [reflexivity |].
  rewrite length_take, length_drop. lia.
Qed.

Lemma view_range_returns_lines_witness :
  exists out,
    getTextEditorTool.execute (getTextEditorTool.view_lines "notes.txt" [2; 3]) Samples.w_lines
    = (inr out, Samples.w_lines) /\
    JS.split JS.LF out = ["two"; "three"] /\
    Z.of_nat (length (JS.split JS.LF out)) = 2.
Proof.
  apply (view_range_returns_lines Samples.w_lines "notes.txt"
           ("one" ++ JS.NL ++ "two" ++ JS.NL ++ "three") 2 3);
    vm_compute; first [reflexivity | discriminate].
Defined.

(** X12. A range that starts at line 1 and ends at or after the last
    line, or has no end, gives the whole content back, character for
    character. *)
Theorem view_full_range_is_content (w : World) (p content : string) :
  Fs.node_at (files w) (Path.resolve (cwd w) p) = Some (File content) ->
  (forall b, Z.of_nat (length (JS.split JS.LF content)) <= b ->
             getTextEditorTool.execute (getTextEditorTool.view_lines p [1; b]) w
             = (inr content, w)) /\
  getTextEditorTool.execute (getTextEditorTool.view_lines p [1]) w = (inr content, w).
Proof.
  intros Hfile. split.
  - intros b Hb. rewrite (view_range_file w p content [1; b] Hfile).
    change ([1; b] !! 0%nat) with (Some 1). change ([1; b] !! 1%nat) with (Some b).
    change (1 - 1) with 0. rewrite slice_all by exact Hb.
    unfold JS.NL. now rewrite join_split.
  - rewrite (view_range_file w p content [1] Hfile).
    change ([1] !! 0%nat) with (Some 1). change ([1] !! 1%nat) with (@None Z).
    change (1 - 1) with 0. rewrite slice_all by exact I.
    unfold JS.NL. now rewrite join_split.
Qed.

Lemma view_full_range_is_content_witness :
  getTextEditorTool.execute (getTextEditorTool.view_lines "notes.txt" [1; 3]) Samples.w_lines
  = (inr ("one" ++ JS.NL ++ "two" ++ JS.NL ++ "three"), Samples.w_lines) /\
  getTextEditorTool.execute (getTextEditorTool.view_lines "notes.txt" [1]) Samples.w_lines
  = (inr ("one" ++ JS.NL ++ "two" ++ JS.NL ++ "three"), Samples.w_lines).
Proof.
  destruct (view_full_range_is_content Samples.w_lines "notes.txt"
              ("one" ++ JS.NL ++ "two" ++ JS.NL ++ "three")) as [H1 H2];
    [vm_compute; reflexivity |].
  split; [apply H1; vm_compute; discriminate | exact H2].
Defined.

(** X13. An end of -1 in the range does not stand for the end of the
    file: [slice] counts it from the end, so the range [[a, -1]] returns
    the lines from a to the one before the last, and the last line is
    left out. *)
Theorem view_range_minus_one_drops_last_line (w : World) (p content : string) (a : Z) :
  let lines := JS.split JS.LF content in
  Fs.node_at (files w) (Path.resolve (cwd w) p) = Some (File content) ->
  1 <= a -> a < Z.of_nat (length lines) ->
  exists out,
    getTextEditorTool.execute (getTextEditorTool.view_lines p [a; -1]) w = (inr out, w) /\
    JS.split JS.LF out
    = take (length lines - 1 - Z.to_nat (a - 1)) (drop (Z.to_nat (a - 1)) lines) /\
    Z.of_nat (length (JS.split JS.LF out)) = Z.of_nat (length lines) - a.
Proof.
  intros lines Hfile Ha Hlt.
  eexists. split; [apply view_range_file; exact Hfile |].
  simpl. fold lines. unfold JS.slice.
  rewrite (relativeIndex_in_range (length lines) (a - 1)) by lia.
  replace (JS.relativeIndex (length lines) (-1)) with (length lines - 1)%nat
    by (unfold JS.relativeIndex; simpl; lia).
  assert (Hsub : forall sub,
             sub = take (length lines - 1 - Z.to_nat (a - 1)) (drop (Z.to_nat (a - 1)) lines) ->
             JS.split JS.LF (JS.join JS.NL sub) = sub).
  { intros sub ->. apply (split_join_lines content).
    - intros E. apply (f_equal length) in E.
      rewrite length_take, length_drop in E. simpl in E. lia.
    - apply Forall_take, Forall_drop, split_pieces_free. }
  rewrite (Hsub _ eq_refl). split; [reflexivity |].
  rewrite length_take, length_drop. lia.
Qed.

Lemma view_range_minus_one_drops_last_line_witness :
  exists out,
    getTextEditorTool.execute (getTextEditorTool.view_lines "notes.txt" [1; -1]) Samples.w_lines
    = (inr out, Samples.w_lines) /\
    JS.split JS.LF out = ["one"; "two"] /\
    Z.of_nat (length (JS.split JS.LF out)) = 2.
Proof.
  apply (view_range_minus_one_drops_last_line Samples.w_lines "notes.txt"
           ("one" ++ JS.NL ++ "two" ++ JS.NL ++ "three") 1);
    vm_compute; first [reflexivity | discriminate].
Defined.

(** X14. [insert] takes every index: one at or past the number of lines
    appends the text after the last line, one at or below minus the
    number of lines puts it before the first, and a negative one in
    between counts from the end. *)
Theorem insert_clamps_index (w : World) (p text content : string) (i : Z) :
  let fullPath := Path.resolve (cwd w) p in
  let lines := JS.split JS.LF content in
  let n := Z.of_nat (length lines) in
  Fs.node_at (files w) fullPath = Some (File content) ->
  exists content',
    getTextEditorTool.execute (getTextEditorTool.insert p i text) w
    = (inr ("Text inserted at line " ++ pretty i ++ " in " ++ p),
       with_files (<[fullPath := File content']> (files w)) w) /\
    (n <= i -> JS.split JS.LF content' = (lines ++ JS.split JS.LF text)%list) /\
    (i <= - n -> JS.split JS.LF content' = (JS.split JS.LF text ++ lines)%list) /\
    (- n <= i < 0 ->
     JS.split JS.LF content'
     = (take (Z.to_nat (n + i)) lines ++ JS.split JS.LF text
        ++ drop (Z.to_nat (n + i)) lines)%list).
Proof.
  intros fullPath lines n Hfile.
  eexists. split; [apply insert_file; exact Hfile |].
  unfold JS.splice_insert. fold lines.
  pose proof (split_join_splice JS.LF content text
                (JS.relativeIndex (length lines) i)) as Hsplit.
  cbv zeta in Hsplit. fold lines in Hsplit. fold JS.NL in Hsplit. rewrite Hsplit.
  assert (Hpos : (0 < length lines)%nat).
  { subst lines. destruct (JS.split JS.LF content) eqn:E;
      [now apply split_not_nil in E | simpl; lia]. }
  unfold JS.relativeIndex. subst n. repeat split.
  - intros Hi. destruct (Z.ltb_spec i 0); [lia |].
    replace (Z.to_nat (Z.min i (Z.of_nat (length lines)))) with (length lines) by lia.
    now rewrite take_ge, drop_ge, app_nil_r by lia.
  - intros Hi. destruct (Z.ltb_spec i 0); [| lia].
    replace (Z.to_nat (Z.max (Z.of_nat (length lines) + i) 0)) with 0%nat by lia.
    reflexivity.
  - intros Hi. destruct (Z.ltb_spec i 0); [| lia].
    now replace (Z.to_nat (Z.max (Z.of_nat (length lines) + i) 0))
      with (Z.to_nat (Z.of_nat (length lines) + i)) by lia.
Qed.

Lemma insert_clamps_index_witness :
  exists content',
    getTextEditorTool.execute (getTextEditorTool.insert "notes.txt" 99 "end") Samples.w_lines
    = (inr ("Text inserted at line " ++ pretty 99 ++ " in " ++ "notes.txt"),
       with_files (<[["srv"; "app"; "notes.txt"] := File content']> (files Samples.w_lines))
                  Samples.w_lines) /\
    JS.split JS.LF content' = ["one"; "two"; "three"; "end"].
Proof.
  destruct (insert_clamps_index Samples.w_lines "notes.txt" "end"
              ("one" ++ JS.NL ++ "two" ++ JS.NL ++ "three") 99)
    as (content' & Hrun & Hpast & _); [vm_compute; reflexivity |].
  exists content'. split; [exact Hrun |]. apply Hpast. vm_compute. discriminate.
Defined.

(** X15. What [insert] put in, [view] reads back: after [insert] of a
    text at an index i within the file, the range from line i + 1 over as
    many lines as the text has returns the text, character for
    character. *)
Theorem insert_then_view_range (w : World) (p text content : string) (i : Z) :
  let lines := JS.split JS.LF content in
  let m := Z.of_nat (length (JS.split JS.LF text)) in
  Fs.node_at (files w) (Path.resolve (cwd w) p) = Some (File content) ->
  0 <= i <= Z.of_nat (length lines) ->
  exists w',
    getTextEditorTool.execute (getTextEditorTool.insert p i text) w
    = (inr ("Text inserted at line " ++ pretty i ++ " in " ++ p), w') /\
    getTextEditorTool.execute (getTextEditorTool.view_lines p [i + 1; i + m]) w'
    = (inr text, w').
Proof.
  intros lines m Hfile Hi.
  assert (Hne : Path.resolve (cwd w) p <> []).
  { intros E. rewrite E in Hfile. discriminate. }
  eexists. split; [apply insert_file; exact Hfile |].
  rewrite view_range_file with (content :=
    JS.join JS.NL (JS.splice_insert (JS.split JS.LF content) i text)).
  2:{ simpl. rewrite node_at_nonroot by exact Hne. apply lookup_insert_eq. }
  change ([i + 1; i + m] !! 0%nat) with (Some (i + 1)).
  change ([i + 1; i + m] !! 1%nat) with (Some (i + m)).
  unfold JS.splice_insert. fold lines.
  pose proof (split_join_splice JS.LF content text
                (JS.relativeIndex (length lines) i)) as Hsplit.
  cbv zeta in Hsplit. fold lines in Hsplit. fold JS.NL in Hsplit. rewrite Hsplit.
  rewrite relativeIndex_in_range by exact Hi.
  rewrite slice_in_range;
    [| lia | rewrite !length_app, length_take, length_drop; subst m; lia].
  replace (Z.to_nat (i + 1 - 1)) with (Z.to_nat i) by lia.
  replace (Z.to_nat (i + m - (i + 1 - 1))) with (length (JS.split JS.LF text))
    by (subst m; lia).
  rewrite drop_app_length' by (rewrite length_take; lia).
  rewrite take_app_length. unfold JS.NL. now rewrite join_split.
Qed.

Lemma insert_then_view_range_witness :
  exists w',
    getTextEditorTool.execute
      (getTextEditorTool.insert "notes.txt" 1 ("NEW" ++ JS.NL ++ "LINES")) Samples.w_lines
    = (inr ("Text inserted at line " ++ pretty 1 ++ " in " ++ "notes.txt"), w') /\
    getTextEditorTool.execute (getTextEditorTool.view_lines "notes.txt" [2; 3]) w'
    = (inr ("NEW" ++ JS.NL ++ "LINES"), w').
Proof.
  apply (insert_then_view_range Samples.w_lines "notes.txt" ("NEW" ++ JS.NL ++ "LINES")
           ("one" ++ JS.NL ++ "two" ++ JS.NL ++ "three") 1);
    [vm_compute; reflexivity | vm_compute; split; discriminate].
Defined.

(** ** The command-execution tool, one call at a time *)

(** X16. Without [restart], one call runs the command once, whether it
    succeeds or fails (nothing is retried): the record of the commands
    run grows by that command alone, the files are those the shell left,
    and the working directory and the standard output of the process are
    as they were. *)
Theorem bash_runs_command_once
        (sh : child_process.Shell) (i : getBashTool.Input) (w : World) :
  getBashTool.restart i <> Some true ->
  let w' := (getBashTool.execute sh i w).2 in
  executed w' = (executed w ++ [getBashTool.command i])%list /\
  files w' = (sh getBashTool.options (getBashTool.command i) (files w)).2 /\
  cwd w' = cwd w /\ written w' = written w.
Proof.
  intros Hr. cbv zeta. rewrite (execute_runs sh i w Hr). unfold child_process.execSync.
  destruct (sh getBashTool.options (getBashTool.command i) (files w)) as [child fs'].
  destruct child as [status out err|out err|out err|msg]; simpl;
    try (repeat split; reflexivity).
  destruct (status =? 0); repeat split; reflexivity.
Qed.

Lemma bash_runs_command_once_witness :
  let w' := (getBashTool.execute Samples.shell (getBashTool.run "false") Samples.w0).2 in
  executed w' = (executed Samples.w0 ++ ["false"])%list /\
  files w' = (Samples.shell getBashTool.options "false" (files Samples.w0)).2 /\
  cwd w' = cwd Samples.w0 /\ written w' = written Samples.w0.
Proof.
  apply (bash_runs_command_once Samples.shell (getBashTool.run "false") Samples.w0).
  discriminate.
Defined.

(** X17. The text that the tool returns does not tell a failure from a
    success: no function of the returned text is true on every failed
    command and false on every command that exited with status 0, since
    a command may print on its standard output the very text that the
    tool makes of a failure. *)
Theorem bash_text_hides_failure :
  ~ exists classify : string -> bool,
      forall (sh : child_process.Shell) (i : getBashTool.Input) (w w' : World) (out : string),
        getBashTool.restart i <> Some true ->
        getBashTool.execute sh i w = (inr out, w') ->
        classify out
        = child_process.failed (sh getBashTool.options (getBashTool.command i) (files w)).1.
Proof.
  intros (classify & H).
  pose proof (H Samples.shell (getBashTool.run "false") Samples.w0 _ _
                ltac:(discriminate) eq_refl) as Hfail.
  pose proof (H Samples.shell (getBashTool.run "cat report.txt") Samples.w0 _ _
                ltac:(discriminate) eq_refl) as Hok.
  vm_compute in Hfail, Hok. congruence.
Qed.

(** ** The request handler before the loop *)




(** ** Outcomes of [create], [str_replace], [insert] and [view] at the edges *)

(** X19. [create] succeeds at exactly the paths that resolve to no
    directory and have no regular file among their ancestors; at every
    other path it throws. *)
Theorem create_succeeds_iff_writable (w : World) (p t : string) :
  (exists msg w',
      getTextEditorTool.execute (getTextEditorTool.create p t) w = (inr msg, w'))
  <-> Fs.writable (files w) (Path.resolve (cwd w) p) = true.
Proof.
  split.
  - intros (msg & w' & Hrun).
    destruct (Fs.writable (files w) (Path.resolve (cwd w) p)) eqn:Hw; [reflexivity |].
    destruct (create_not_writable w p t Hw) as (e & w1 & Hthrow).
    rewrite Hrun in Hthrow. discriminate.
  - intros Hw. destruct (create_writable w p t Hw) as (w' & Hrun & _). eauto.
Qed.

(** X20. On an existing regular file, [str_replace] succeeds exactly when
    [old_str] occurs in the content: with no occurrence it reports that
    [old_str] was not found and leaves the world as it is, with one or
    more it reports the update. *)
Theorem str_replace_outcome (w : World) (p old new current : string) :
  Fs.node_at (files w) (Path.resolve (cwd w) p) = Some (File current) ->
  (JS.occurrences old current = 0%nat ->
   getTextEditorTool.execute (getTextEditorTool.str_replace p old new) w
   = (inr ("Error: old_str not found in " ++ p), w)) /\
  (JS.occurrences old current <> 0%nat ->
   exists w',
     getTextEditorTool.execute (getTextEditorTool.str_replace p old new) w
     = (inr ("File updated: " ++ p), w') /\
     Fs.node_at (files w') (Path.resolve (cwd w) p)
     = Some (File (JS.replace current old new))).
Proof.
  intros Hfile. split.
  - now apply str_replace_absent.
  - intros Hocc.
    destruct (JS.search old current) as [[pre post]|] eqn:Hfound.
    + eexists. split; [now apply (str_replace_run w p old new current pre post) |].
      assert (Hne : Path.resolve (cwd w) p <> []).
      { intros E. rewrite E in Hfile. discriminate. }
      simpl. rewrite node_at_nonroot by exact Hne. rewrite lookup_insert_eq.
      unfold JS.replace. now rewrite Hfound.
    + now apply search_None_occurrences in Hfound.
Qed.

Lemma str_replace_outcome_witness :
  exists w',
    getTextEditorTool.execute (getTextEditorTool.str_replace "pets.txt" "cat" "dog")
                              Further.w_cats
    = (inr "File updated: pets.txt", w') /\
    Fs.node_at (files w') ["srv"; "app"; "pets.txt"] = Some (File "a dog and a cat").
Proof.
  destruct (str_replace_outcome Further.w_cats "pets.txt" "cat" "dog" "a cat and a cat")
    as [_ H]; [vm_compute; reflexivity |].
  apply H. vm_compute. discriminate.
Defined.

(** X21. [insert] with neither [insert_line] nor [insert_text] does not
    fail on an existing file: it puts an empty line in front of the
    content and reports line [undefined]. *)
Theorem insert_without_arguments (w : World) (p content : string) :
  let fullPath := Path.resolve (cwd w) p in
  Fs.node_at (files w) fullPath = Some (File content) ->
  getTextEditorTool.execute (Further.bare "insert" p) w
  = (inr ("Text inserted at line undefined in " ++ p),
     with_files (<[fullPath := File (JS.NL ++ content)]> (files w)) w).
Proof.
  intros fullPath Hfile.
  assert (Hc : JS.join JS.NL (JS.splice_insert (JS.split JS.LF content) 0 "")
               = JS.NL ++ content).
  { unfold JS.splice_insert. rewrite relativeIndex_in_range by lia.
    pose proof (split_not_nil JS.LF content) as Hne.
    pose proof (join_split JS.LF content) as Hjoin. fold JS.NL in Hjoin.
    destruct (JS.split JS.LF content) as [|h t] eqn:E; [contradiction |].
    change (take (Z.to_nat 0) (h :: t) ++ "" :: drop (Z.to_nat 0) (h :: t))%list
      with ("" :: h :: t).
    change (JS.join JS.NL ("" :: h :: t)) with (JS.NL ++ JS.join JS.NL (h :: t)).
    now rewrite Hjoin. }
  rewrite <- Hc.
  unfold getTextEditorTool.execute, Further.bare, Fs.existsSync, bind, Fs.readFileSync,
    Fs.writeFileSync, ret. simpl. fold fullPath. rewrite Hfile. simpl. now rewrite Hfile.
Qed.

Lemma insert_without_arguments_witness :
  getTextEditorTool.execute (Further.bare "insert" "pets.txt") Further.w_cats
  = (inr "Text inserted at line undefined in pets.txt",
     with_files (<[["srv"; "app"; "pets.txt"] := File (JS.NL ++ "a cat and a cat")]>
                   (files Further.w_cats)) Further.w_cats).
Proof.
  apply (insert_without_arguments Further.w_cats "pets.txt" "a cat and a cat").
  vm_compute. reflexivity.
Defined.

(** X22. A range whose end lies before its start is no error: [view]
    returns the empty text and changes nothing. *)
Theorem view_range_backwards_is_empty (w : World) (p content : string) (a b : Z) :
  Fs.node_at (files w) (Path.resolve (cwd w) p) = Some (File content) ->
  1 <= a -> 0 <= b < a ->
  getTextEditorTool.execute (getTextEditorTool.view_lines p [a; b]) w = (inr "", w).
Proof.
  intros Hfile Ha Hb. rewrite (view_range_file w p content [a; b] Hfile).
  change ([a; b] !! 0%nat) with (Some a). change ([a; b] !! 1%nat) with (Some b).
  unfold JS.slice, JS.relativeIndex.
  destruct (Z.ltb_spec (a - 1) 0); [lia |]. destruct (Z.ltb_spec b 0); [lia |].
  replace (Z.to_nat (Z.min b (Z.of_nat (length (JS.split JS.LF content))))
           - Z.to_nat (Z.min (a - 1) (Z.of_nat (length (JS.split JS.LF content)))))%nat
    with 0%nat by lia.
  reflexivity.
Qed.

Lemma view_range_backwards_is_empty_witness :
  getTextEditorTool.execute (getTextEditorTool.view_lines "notes.txt" [3; 1]) Samples.w_lines
  = (inr "", Samples.w_lines).
Proof.
  apply (view_range_backwards_is_empty Samples.w_lines "notes.txt"
           ("one" ++ JS.NL ++ "two" ++ JS.NL ++ "three") 3 1);
    [vm_compute; reflexivity | lia | lia].
Defined.
